(** * InterCom: the jitter buffer of [bufferRegister.py] and [buffer2Register.py]

    A shallow embedding of the class [Buffering] of the two buffer modules:
    the chunk codec ([pack] / [unpack]), the ring of [cells_in_buffer]
    slots, the rate controller ([adjust_playback_speed]), the playback step
    ([play_chunk]), the sound-device callback ([_record_IO_and_play]) and
    the receive loop of [run].

    Conventions of the embedding.
    - Python integers are [Z]; [%] with a positive modulus is [Z.modulo].
    - A [bytes] object is a list of [Z] in [0, 256).
    - A NumPy [int16] array is the list of its samples in C order (a
      [chunk]); where the code slices rows, the array is a list of rows
      (a [frame]).
    - Mutation of [self] is explicit state passing; an exception is the
      [Raise] branch of [result].  The state computed so far survives an
      exception, as an object's attributes do.
    - [playback_speed] is a Python float set to one of five decimal
      constants; it is kept as the exact rational, and [int (n * speed)]
      as the truncation of the exact product.  [binary64_agrees] below
      compares this with the double-precision product. *)

From Stdlib Require Import ZArith List Lia QArith Qround Bool.
From Stdlib Require Import PrimFloat.
From Stdlib Require FloatOps Uint63.
From stdpp Require Import base list.
Import ListNotations.
Local Open Scope Z_scope.

(** ** Exceptions and results *)

Inductive exn : Type :=
| struct_error      (* struct.error, from struct.pack / struct.unpack *)
| ValueError        (* numpy: buffer size or shape mismatch *)
| IndexError        (* list index out of range *)
| OSError.          (* socket failure reported by the transport *)

Inductive result (A : Type) : Type :=
| Ok (a : A)
| Raise (e : exn).
Arguments Ok {A} a.
Arguments Raise {A} e.

Definition is_ok {A} (r : result A) : bool :=
  match r with Ok _ => true | Raise _ => false end.

(** The spec's error kind [MalformedPacket] covers the two exceptions the
    decoder raises on a datagram it cannot split. *)
Definition MalformedPacket (e : exn) : Prop :=
  e = struct_error \/ e = ValueError.

(** ** Bytes and samples *)

Definition byte := Z.
Definition bytes := list byte.
Definition chunk := list Z.
Definition frame := list (list Z).

Definition is_uint16 (n : Z) : Prop := 0 <= n < 65536.
Definition is_int16 (s : Z) : Prop := -32768 <= s < 32768.

(** Byte order of the machine: [tobytes] and [frombuffer] both use it. *)
Inductive byteorder : Type := little | big.

(** [struct.pack("!H", n)]: network order, range checked. *)
Definition struct_pack_H (n : Z) : result bytes :=
  if (0 <=? n) && (n <=? 65535)
  then Ok [Z.shiftr n 8; Z.land n 255]
  else Raise struct_error.

(** [struct.unpack("!H", b)]: exactly two bytes are required. *)
Definition struct_unpack_H (b : bytes) : result Z :=
  match b with
  | [hi; lo] => Ok (Z.lor (Z.shiftl hi 8) lo)
  | _ => Raise struct_error
  end.

(** One [int16] sample as two bytes (two's complement). *)
Definition sample_tobytes (bo : byteorder) (s : Z) : bytes :=
  let u := s mod 65536 in
  match bo with
  | little => [Z.land u 255; Z.shiftr u 8]
  | big => [Z.shiftr u 8; Z.land u 255]
  end.

Definition sample_frombytes (bo : byteorder) (b0 b1 : byte) : Z :=
  let u := match bo with
           | little => Z.lor (Z.shiftl b1 8) b0
           | big => Z.lor (Z.shiftl b0 8) b1
           end in
  if u <? 32768 then u else u - 65536.

(** [chunk.tobytes()] *)
Definition tobytes (bo : byteorder) (c : chunk) : bytes :=
  flat_map (sample_tobytes bo) c.

Fixpoint samples_of (bo : byteorder) (b : bytes) : chunk :=
  match b with
  | b0 :: b1 :: rest => sample_frombytes bo b0 b1 :: samples_of bo rest
  | _ => []
  end.

(** [np.frombuffer(b, dtype=np.int16)]: the size must be a multiple of the
    item size. *)
Definition frombuffer (bo : byteorder) (b : bytes) : result chunk :=
  if Nat.even (length b) then Ok (samples_of bo b) else Raise ValueError.

(** ** The chunk codec *)

Definition pack (bo : byteorder) (chunk_number : Z) (c : chunk) : result bytes :=
  match struct_pack_H chunk_number with
  | Ok header => Ok (header ++ tobytes bo c)
  | Raise e => Raise e
  end.

Definition unpack (bo : byteorder) (packed_chunk : bytes) : result (Z * chunk) :=
  match struct_unpack_H (firstn 2 packed_chunk) with
  | Raise e => Raise e
  | Ok chunk_number =>
      match frombuffer bo (skipn 2 packed_chunk) with
      | Raise e => Raise e
      | Ok c => Ok (chunk_number, c)
      end
  end.

(** ** Configuration and object state *)

(** What [__init__] fixes for the life of the object.  [chunks_to_buffer]
    is the ceiling of [buffering_time / 1000 / chunk_time] with
    [buffering_time] raised to at least one millisecond, hence at least 1;
    [frames_per_chunk] and [NUMBER_OF_CHANNELS] come from the base class. *)
Record config : Type := {
  byte_order : byteorder;
  chunks_to_buffer : Z;
  frames_per_chunk : nat;
  NUMBER_OF_CHANNELS : nat
}.

Definition cells_in_buffer (cfg : config) : Z := chunks_to_buffer cfg * 2.

Definition well_formed (cfg : config) : Prop := 1 <= chunks_to_buffer cfg.

Definition CHUNK_NUMBERS : Z := Z.shiftl 1 15.

(** The attributes of a [Buffering] object that the methods below touch.
    [sock_sent] logs the datagrams accepted by the socket, newest first. *)
Record Buffering : Type := {
  _buffer : list chunk;
  chunk_number : Z;
  played_chunk_number : Z;
  playback_speed : Q;
  sock_sent : list bytes
}.

Definition set_buffer (b : list chunk) (s : Buffering) : Buffering :=
  {| _buffer := b; chunk_number := chunk_number s;
     played_chunk_number := played_chunk_number s;
     playback_speed := playback_speed s; sock_sent := sock_sent s |}.

Definition set_chunk_number (n : Z) (s : Buffering) : Buffering :=
  {| _buffer := _buffer s; chunk_number := n;
     played_chunk_number := played_chunk_number s;
     playback_speed := playback_speed s; sock_sent := sock_sent s |}.

Definition set_played_chunk_number (n : Z) (s : Buffering) : Buffering :=
  {| _buffer := _buffer s; chunk_number := chunk_number s;
     played_chunk_number := n;
     playback_speed := playback_speed s; sock_sent := sock_sent s |}.

Definition set_playback_speed (q : Q) (s : Buffering) : Buffering :=
  {| _buffer := _buffer s; chunk_number := chunk_number s;
     played_chunk_number := played_chunk_number s;
     playback_speed := q; sock_sent := sock_sent s |}.

Definition set_sock_sent (w : list bytes) (s : Buffering) : Buffering :=
  {| _buffer := _buffer s; chunk_number := chunk_number s;
     played_chunk_number := played_chunk_number s;
     playback_speed := playback_speed s; sock_sent := w |}.

(** ** Methods as state-and-exception computations *)

Definition M (A : Type) : Type := Buffering -> Buffering * result A.

Definition ret {A} (a : A) : M A := fun s => (s, Ok a).

Definition bind {A B} (m : M A) (k : A -> M B) : M B :=
  fun s =>
    match m s with
    | (s', Ok a) => k a s'
    | (s', Raise e) => (s', Raise e)
    end.

Definition lift {A} (r : result A) : M A := fun s => (s, r).
Definition gets {A} (f : Buffering -> A) : M A := fun s => (s, Ok (f s)).
Definition modify (f : Buffering -> Buffering) : M unit := fun s => (f s, Ok tt).

Declare Scope method_scope.
Delimit Scope method_scope with method.
Notation "'let*' x ':=' m 'in' k" := (bind m (fun x => k))
  (at level 10, x name, m at level 100, k at level 200) : method_scope.
Notation "m '>>' k" := (bind m (fun _ => k))
  (at level 90, right associativity) : method_scope.
Local Open Scope method_scope.

(** [generate_zero_chunk], of the base class: a silent chunk. *)
Definition zero_chunk (cfg : config) : chunk :=
  repeat 0 (frames_per_chunk cfg * NUMBER_OF_CHANNELS cfg)%nat.

(** [__init__] *)
Definition init (cfg : config) : Buffering :=
  {| _buffer := repeat (zero_chunk cfg) (Z.to_nat (cells_in_buffer cfg));
     chunk_number := 0;
     played_chunk_number := 0;
     playback_speed := 1;
     sock_sent := [] |}.

(** The number both [log_buffer_status] and [adjust_playback_speed]
    compute into their local [chunks_in_buffer]. *)
Definition chunks_in_buffer (cfg : config) (s : Buffering) : Z :=
  (chunk_number s - played_chunk_number s) mod cells_in_buffer cfg.

(** [log_buffer_status]: the value of the row appended to the CSV file. *)
Definition log_buffer_status (cfg : config) : M Z :=
  gets (chunks_in_buffer cfg).

(** [self._buffer[i] = c] *)
Definition buffer_chunk (cfg : config) (n : Z) (c : chunk) : M unit :=
  fun s =>
    let i := Z.to_nat (n mod cells_in_buffer cfg) in
    if decide (i < length (_buffer s))%nat
    then (set_buffer (<[i := c]> (_buffer s)) s, Ok tt)
    else (s, Raise IndexError).

Definition unbuffer_next_chunk (cfg : config) : M chunk :=
  fun s =>
    match _buffer s !! Z.to_nat (played_chunk_number s mod cells_in_buffer cfg) with
    | Some c => (s, Ok c)
    | None => (s, Raise IndexError)
    end.

(** [receive_and_buffer]; the datagram delivered by the socket is the
    argument. *)
Definition receive_and_buffer (cfg : config) (packed_chunk : bytes) : M Z :=
  let* received := lift (unpack (byte_order cfg) packed_chunk) in
  let (n, c) := (received : Z * chunk) in
  buffer_chunk cfg n c >>
  ret n.

(** The five speeds of the rate controller. *)
Definition speed_105 : Q := 105 # 100.
Definition speed_095 : Q := 95 # 100.
Definition speed_080 : Q := 80 # 100.
Definition speed_060 : Q := 60 # 100.
Definition speed_100 : Q := 1.

(** [adjust_playback_speed] of [buffer2Register.py] *)
Definition adjust_playback_speed (cfg : config) : M unit :=
  modify (fun s =>
    let o := chunks_in_buffer cfg s in
    if o >=? chunks_to_buffer cfg - 2 then set_playback_speed speed_105 s
    else if o =? 3 then set_playback_speed speed_095 s
    else if o =? 2 then set_playback_speed speed_080 s
    else if o =? 1 then set_playback_speed speed_060 s
    else set_playback_speed speed_100 s).

(** ** Frames: reshape and row slices *)

Fixpoint rows_of (n w : nat) (l : list Z) : frame :=
  match n with
  | O => []
  | S n' => firstn w l :: rows_of n' w (skipn w l)
  end.

(** [c.reshape(n, w)]: the sizes must agree. *)
Definition reshape (n w : nat) (c : chunk) : result frame :=
  if decide (length c = n * w)%nat then Ok (rows_of n w c) else Raise ValueError.

Definition same_shape (a b : frame) : bool :=
  bool_decide (map length a = map length b).

(** [DAC[:k] = src[:k]]: both slices stop at the end of their array, and
    the shapes of the two slices must agree (a source of one row or one
    column, which NumPy would broadcast, is treated as a mismatch; the
    stream hands out frames of the shape of a chunk). *)
Definition assign_rows (k : nat) (DAC src : frame) : result frame :=
  if same_shape (firstn k DAC) (firstn k src)
  then Ok (firstn k src ++ skipn k DAC)
  else Raise ValueError.

(** [DAC[k:] = 0] *)
Definition zero_rows (k : nat) (DAC : frame) : frame :=
  firstn k DAC ++ map (map (fun _ => 0)) (skipn k DAC).

(** Python's [int] on a non-integer: truncation toward zero. *)
Definition int (q : Q) : Z := Z.quot (Qnum q) (Zpos (Qden q)).

(** The same on a binary64 value, and the five constants as the doubles
    the Python literals denote. *)
Definition float_int (f : PrimFloat.float) : Z :=
  match FloatOps.Prim2SF f with
  | SpecFloat.S754_finite sign m e =>
      let magnitude :=
        if 0 <=? e then Z.shiftl (Zpos m) e else Z.shiftr (Zpos m) (- e) in
      if sign then - magnitude else magnitude
  | _ => 0
  end.

Definition binary64_speeds : list (Q * PrimFloat.float) :=
  [(speed_105, 0x1.0cccccccccccdp+0%float);
   (speed_095, 0x1.e666666666666p-1%float);
   (speed_080, 0x1.999999999999ap-1%float);
   (speed_060, 0x1.3333333333333p-1%float);
   (speed_100, 0x1p+0%float)].

Definition binary64_agrees_at (n : Z) : bool :=
  forallb (fun qf : Q * PrimFloat.float =>
             float_int (PrimFloat.mul (PrimFloat.of_uint63 (Uint63.of_Z n)) (snd qf))
             =? int (inject_Z n * fst qf))
          binary64_speeds.

Definition advance_played (cfg : config) : M unit :=
  modify (fun s =>
    set_played_chunk_number
      ((played_chunk_number s + 1) mod cells_in_buffer cfg) s).

(** [self.send], of the base class: one [sendto] on the socket.  Whether
    the socket accepts the datagram is the environment's choice
    [outcome]. *)
Definition send (outcome : result unit) (packed_chunk : bytes) : M unit :=
  fun s =>
    match outcome with
    | Ok _ => (set_sock_sent (packed_chunk :: sock_sent s) s, Ok tt)
    | Raise e => (s, Raise e)
    end.

Definition next_chunk_number : M Z :=
  modify (fun s =>
    set_chunk_number ((chunk_number s + 1) mod CHUNK_NUMBERS) s) >>
  gets chunk_number.

(** *** [bufferRegister.py] *)
Module bufferRegister.

Definition play_chunk (cfg : config) (DAC : frame) (c : chunk) : M frame :=
  advance_played cfg >>
  let* c2 := lift (reshape (frames_per_chunk cfg) (NUMBER_OF_CHANNELS cfg) c) in
  lift (assign_rows (length DAC) DAC c2).

Definition _record_IO_and_play (cfg : config) (outcome : result unit)
    (ADC DAC : frame) : M frame :=
  let* n := next_chunk_number in
  let* packed_chunk := lift (pack (byte_order cfg) n (concat ADC)) in
  send outcome packed_chunk >>
  let* c := unbuffer_next_chunk cfg in
  play_chunk cfg DAC c.

End bufferRegister.

(** *** [buffer2Register.py] *)
Module buffer2Register.

Definition adjusted_frames (cfg : config) (speed : Q) : nat :=
  Z.to_nat (int (inject_Z (Z.of_nat (frames_per_chunk cfg)) * speed)).

Definition play_chunk (cfg : config) (DAC : frame) (c : chunk) : M frame :=
  advance_played cfg >>
  let* c2 := lift (reshape (frames_per_chunk cfg) (NUMBER_OF_CHANNELS cfg) c) in
  let* speed := gets playback_speed in
  let k := adjusted_frames cfg speed in
  let* DAC1 := lift (assign_rows k DAC c2) in
  ret (if decide (k < frames_per_chunk cfg)%nat then zero_rows k DAC1 else DAC1).

Definition _record_IO_and_play (cfg : config) (outcome : result unit)
    (ADC DAC : frame) : M frame :=
  let* n := next_chunk_number in
  let* packed_chunk := lift (pack (byte_order cfg) n (concat ADC)) in
  send outcome packed_chunk >>
  adjust_playback_speed cfg >>
  let* c := unbuffer_next_chunk cfg in
  play_chunk cfg DAC c.

End buffer2Register.

(** ** [run]: seeding and the receive loop *)

Definition run_begin : M unit := modify (set_played_chunk_number 0).

(** The first [receive_and_buffer] of [run] and the assignment after it. *)
Definition run_first (cfg : config) (packed_chunk : bytes) : M unit :=
  let* first_received_chunk_number := receive_and_buffer cfg packed_chunk in
  modify (set_played_chunk_number
            ((first_received_chunk_number - chunks_to_buffer cfg)
               mod cells_in_buffer cfg)).

(** The two activities interleave at the grain of a method call.  A trace
    keeps going after an exception; the program stops there, so the states
    reached by traces include every state the program reaches. *)
Inductive source_file : Type := Register | Register2.

Definition callback (m : source_file) :
    config -> result unit -> frame -> frame -> M frame :=
  match m with
  | Register => bufferRegister._record_IO_and_play
  | Register2 => buffer2Register._record_IO_and_play
  end.

Inductive event : Type :=
| Callback (outcome : result unit) (ADC DAC : frame)
| Datagram (packed_chunk : bytes)
| LogTick.

Record system : Type := {
  self : Buffering;
  seeded : bool
}.

Definition start (cfg : config) : system :=
  {| self := fst (run_begin (init cfg)); seeded := false |}.

Definition step (m : source_file) (cfg : config) (sys : system) (ev : event) : system :=
  match ev with
  | Callback outcome ADC DAC =>
      {| self := fst (callback m cfg outcome ADC DAC (self sys));
         seeded := seeded sys |}
  | Datagram p =>
      {| self := if seeded sys
                 then fst (receive_and_buffer cfg p (self sys))
                 else fst (run_first cfg p (self sys));
         seeded := true |}
  | LogTick =>
      {| self := fst (log_buffer_status cfg (self sys)); seeded := seeded sys |}
  end.

Definition run_trace (m : source_file) (cfg : config) (evs : list event) : system :=
  fold_left (step m cfg) evs (start cfg).

(** ** Readings of the specification, for comparison with the code *)

(** Rounding to the nearest integer, ties to even (Python's [round]). *)
Definition round_nearest (q : Q) : Z :=
  let f := Qfloor q in
  let twice := Qfloor (q * 2) - 2 * f in
  if twice =? 0 then f
  else if Qeq_bool (q * 2) (inject_Z (2 * f + 1))
       then (if Z.even f then f else f + 1)
       else f + 1.

(** The output frame the specification describes: the first
    [round (frame_count * r)] frames of the chunk, at most [frame_count],
    and silence after them. *)
Definition rendered_as_stated (cfg : config) (r : Q) (c : chunk) : frame :=
  let F := frames_per_chunk cfg in
  let C := NUMBER_OF_CHANNELS cfg in
  let k := Nat.min F (Z.to_nat (round_nearest (inject_Z (Z.of_nat F) * r))) in
  firstn k (rows_of F C c) ++ repeat (repeat 0 C) (F - k).

(** The successor of a wire sequence number, were it to wrap at 65536. *)
Definition next_wire_number_as_stated (n : Z) : Z := (n + 1) mod 65536.

(** Step 4 of the driver has completed for the period that took [s] to
    [s']: the callback returned a frame and the play cursor moved on one
    slot. *)
Definition step4_completed (cfg : config) (s : Buffering)
    (out : Buffering * result frame) : Prop :=
  is_ok (snd out) = true /\
  played_chunk_number (fst out)
    = (played_chunk_number s + 1) mod cells_in_buffer cfg.

(** ** The transmit half of the callback *)

(** The state in which the callback reaches the socket, and the datagram
    it hands over. *)
Definition numbered (s : Buffering) : Buffering :=
  set_chunk_number ((chunk_number s + 1) mod CHUNK_NUMBERS) s.

Definition outgoing (cfg : config) (ADC : frame) (s : Buffering) : bytes :=
  [Z.shiftr ((chunk_number s + 1) mod CHUNK_NUMBERS) 8;
   Z.land ((chunk_number s + 1) mod CHUNK_NUMBERS) 255]
    ++ tobytes (byte_order cfg) (concat ADC).

Definition transmitted (cfg : config) (ADC : frame) (s : Buffering) : Buffering :=
  set_sock_sent (outgoing cfg ADC s :: sock_sent s) (numbered s).

(** ** The invariant of the ring *)

(** The ring keeps its [cells_in_buffer] slots, the play cursor stays a
    slot index and the local counter stays below [CHUNK_NUMBERS]. *)
Definition ring_invariant (cfg : config) (s : Buffering) : Prop :=
  length (_buffer s) = Z.to_nat (cells_in_buffer cfg) /\
  0 <= played_chunk_number s < cells_in_buffer cfg /\
  0 <= chunk_number s < CHUNK_NUMBERS.

(** ** Well-formed bytes *)

Definition is_byte (b : Z) : Prop := 0 <= b < 256.

(** ** Shapes of traces *)

(** The event is a datagram that [unpack] accepts and whose number falls on
    slot [k] of the ring. *)
Definition writes_slot (cfg : config) (k : nat) (ev : event) : Prop :=
  match ev with
  | Datagram p =>
      match unpack (byte_order cfg) p with
      | Ok (n, _) => Z.to_nat (n mod cells_in_buffer cfg) = k
      | Raise _ => False
      end
  | _ => False
  end.

Definition is_callback (ev : event) : Prop :=
  match ev with Callback _ _ _ => True | _ => False end.

(** A callback whose datagram the socket accepted. *)
Definition is_sent_callback (ev : event) : Prop :=
  match ev with Callback (Ok _) _ _ => True | _ => False end.


(** An event of a stream in which no send fails: an accepted callback, a
    datagram or a log tick. *)
Definition is_streaming_event (ev : event) : Prop :=
  match ev with Callback (Raise _) _ _ => False | _ => True end.

(** ** [Buffering__verbose] of [bufferRegister.py] *)

(** The object of the subclass: the attributes of [Buffering] and the
    statistics the overridden methods keep.  The counters are created by
    the verbose base class; their values on entry are whatever the state
    holds. *)
Record Buffering__verbose : Type := {
  base : Buffering;
  sent_bytes_count : Z;
  sent_messages_count : Z;
  received_bytes_count : Z;
  received_messages_count : Z;
  recorded_chunk : option frame
}.

Definition with_base (b : Buffering) (v : Buffering__verbose) : Buffering__verbose :=
  {| base := b;
     sent_bytes_count := sent_bytes_count v;
     sent_messages_count := sent_messages_count v;
     received_bytes_count := received_bytes_count v;
     received_messages_count := received_messages_count v;
     recorded_chunk := recorded_chunk v |}.

Definition count_sent (packed_chunk : bytes) (v : Buffering__verbose) :
    Buffering__verbose :=
  {| base := base v;
     sent_bytes_count := sent_bytes_count v + Z.of_nat (length packed_chunk);
     sent_messages_count := sent_messages_count v + 1;
     received_bytes_count := received_bytes_count v;
     received_messages_count := received_messages_count v;
     recorded_chunk := recorded_chunk v |}.

Definition count_received (packed_chunk : bytes) (v : Buffering__verbose) :
    Buffering__verbose :=
  {| base := base v;
     sent_bytes_count := sent_bytes_count v;
     sent_messages_count := sent_messages_count v;
     received_bytes_count := received_bytes_count v + Z.of_nat (length packed_chunk);
     received_messages_count := received_messages_count v + 1;
     recorded_chunk := recorded_chunk v |}.

Definition set_recorded_chunk (DAC : frame) (v : Buffering__verbose) :
    Buffering__verbose :=
  {| base := base v;
     sent_bytes_count := sent_bytes_count v;
     sent_messages_count := sent_messages_count v;
     received_bytes_count := received_bytes_count v;
     received_messages_count := received_messages_count v;
     recorded_chunk := Some DAC |}.

Definition MV (A : Type) : Type :=
  Buffering__verbose -> Buffering__verbose * result A.

Definition bindV {A B} (m : MV A) (k : A -> MV B) : MV B :=
  fun v =>
    match m v with
    | (v', Ok a) => k a v'
    | (v', Raise e) => (v', Raise e)
    end.

(** An inherited method, run on the attributes of [Buffering]. *)
Definition inherited {A} (m : M A) : MV A :=
  fun v => let (b, r) := m (base v) in (with_base b v, r).

Module verbose.

(** [send]: the inherited send, then the two counters. *)
Definition send (outcome : result unit) (packed_chunk : bytes) : MV unit :=
  bindV (inherited (send outcome packed_chunk))
        (fun _ v => (count_sent packed_chunk v, Ok tt)).

(** [receive]: the inherited receive returns the datagram [delivered] or
    raises; a datagram is counted before it is looked at. *)
Definition receive (delivered : result bytes) : MV bytes :=
  fun v =>
    match delivered with
    | Ok packed_chunk => (count_received packed_chunk v, Ok packed_chunk)
    | Raise e => (v, Raise e)
    end.

(** [receive_and_buffer] is inherited; its [self.receive] is the one
    above. *)
Definition receive_and_buffer (cfg : config) (delivered : result bytes) : MV Z :=
  bindV (receive delivered) (fun packed_chunk =>
  bindV (inherited (lift (unpack (byte_order cfg) packed_chunk))) (fun received =>
  let (n, c) := (received : Z * chunk) in
  bindV (inherited (buffer_chunk cfg n c)) (fun _ =>
  inherited (ret n)))).

(** [_record_IO_and_play]: the method of [Buffering] through [super], with
    [self.send] bound to the override, then [recorded_chunk].  The calls
    that only display samples are left out. *)
Definition _record_IO_and_play (cfg : config) (outcome : result unit)
    (ADC DAC : frame) : MV frame :=
  bindV (inherited next_chunk_number) (fun n =>
  bindV (inherited (lift (pack (byte_order cfg) n (concat ADC)))) (fun packed_chunk =>
  bindV (send outcome packed_chunk) (fun _ =>
  bindV (inherited (unbuffer_next_chunk cfg)) (fun c =>
  bindV (inherited (bufferRegister.play_chunk cfg DAC c)) (fun played =>
  fun v => (set_recorded_chunk played v, Ok played)))))).

End verbose.

(** The callbacks of a run of the verbose object, oldest first: what the
    socket did with each datagram and the two frames of the period. *)
Definition period : Type := result unit * frame * frame.

Definition verbose_callbacks (cfg : config) (periods : list period)
    (v : Buffering__verbose) : Buffering__verbose :=
  fold_left (fun v (p : period) =>
               let '(outcome, ADC, DAC) := p in
               fst (verbose._record_IO_and_play cfg outcome ADC DAC v))
            periods v.

Definition accepted_bytes (cfg : config) (periods : list period) : Z :=
  fold_right (fun (p : period) total =>
                let '(outcome, ADC, _) := p in
                if is_ok outcome
                then 2 + 2 * Z.of_nat (length (concat ADC)) + total
                else total)
             0 periods.

Definition accepted_count (periods : list period) : Z :=
  Z.of_nat (length (List.filter (fun p : period => is_ok (fst (fst p))) periods)).

(** * Properties *)

(** ** Bytes *)

Lemma split_join_byte (u : Z) :
  Z.lor (Z.shiftl (Z.shiftr u 8) 8) (Z.land u 255) = u.
Proof.
  change 255 with (Z.ones 8).
  apply Z.bits_inj'; intros n Hn.
  rewrite Z.lor_spec, Z.land_spec.
  destruct (Z.ltb_spec n 8) as [Hlt | Hge].
  - rewrite Z.shiftl_spec_low by lia.
    rewrite Z.ones_spec_low by lia.
    now rewrite andb_true_r.
  - rewrite Z.shiftl_spec by lia.
    rewrite Z.shiftr_spec by lia.
    rewrite Z.ones_spec_high by lia.
    rewrite andb_false_r, orb_false_r.
    f_equal; lia.
Qed.

Lemma struct_unpack_pack (n : Z) (header : bytes) :
  struct_pack_H n = Ok header -> struct_unpack_H header = Ok n.
Proof.
  unfold struct_pack_H.
  destruct ((0 <=? n) && (n <=? 65535)); [ | discriminate ].
  intros [= <-]; simpl.
  now rewrite split_join_byte.
Qed.

Lemma struct_pack_in_range (n : Z) :
  is_uint16 n -> struct_pack_H n = Ok [Z.shiftr n 8; Z.land n 255].
Proof.
  unfold is_uint16, struct_pack_H; intros Hn.
  replace ((0 <=? n) && (n <=? 65535)) with true; [ reflexivity | ].
  symmetry; apply andb_true_iff; split; apply Z.leb_le; lia.
Qed.

Lemma struct_pack_out_of_range (n : Z) :
  ~ is_uint16 n -> struct_pack_H n = Raise struct_error.
Proof.
  unfold is_uint16, struct_pack_H; intros Hn.
  destruct (Z.leb_spec 0 n), (Z.leb_spec n 65535); simpl; try reflexivity.
  exfalso; apply Hn; lia.
Qed.

Lemma sample_roundtrip (bo : byteorder) (s : Z) :
  is_int16 s ->
  match sample_tobytes bo s with
  | [b0; b1] => sample_frombytes bo b0 b1 = s
  | _ => False
  end.
Proof.
  unfold is_int16, sample_tobytes, sample_frombytes; intros Hs.
  pose proof (Z.mod_pos_bound s 65536 eq_refl) as Hu.
  pose proof (Z.div_mod s 65536 ltac:(lia)) as Hdm.
  destruct bo; rewrite split_join_byte;
    destruct (Z.ltb_spec (s mod 65536) 32768); lia.
Qed.

Lemma samples_of_tobytes (bo : byteorder) (c : chunk) :
  Forall is_int16 c -> samples_of bo (tobytes bo c) = c.
Proof.
  induction 1 as [ | s c Hs _ IH ]; [ reflexivity | ].
  unfold tobytes in *; simpl.
  pose proof (sample_roundtrip bo s Hs) as Hrt.
  destruct (sample_tobytes bo s) as [ | b0 [ | b1 [ | ? ? ] ] ]; try contradiction.
  simpl. now rewrite Hrt, IH.
Qed.

Lemma tobytes_length (bo : byteorder) (c : chunk) :
  length (tobytes bo c) = (2 * length c)%nat.
Proof.
  induction c as [ | s c IH ]; [ reflexivity | ].
  unfold tobytes in *; simpl.
  rewrite length_app, IH.
  destruct bo; simpl; lia.
Qed.

Lemma even_double (n : nat) : Nat.even (2 * n) = true.
Proof.
  apply Nat.even_spec. now exists n.
Qed.

Lemma frombuffer_tobytes (bo : byteorder) (c : chunk) :
  Forall is_int16 c -> frombuffer bo (tobytes bo c) = Ok c.
Proof.
  intros Hc; unfold frombuffer.
  now rewrite tobytes_length, even_double, samples_of_tobytes.
Qed.

(** ** The codec *)

(** C1. For a sequence number of the 16-bit wire range and a block of
    signed 16-bit samples, [pack] returns a datagram and [unpack] of that
    datagram returns the same sequence number and the same samples, in
    either byte order of the machine. *)
Theorem unpack_pack_roundtrip (bo : byteorder) (seq : Z) (samples : chunk) :
  is_uint16 seq ->
  Forall is_int16 samples ->
  exists packed_chunk,
    pack bo seq samples = Ok packed_chunk /\
    unpack bo packed_chunk = Ok (seq, samples).
Proof.
  intros Hseq Hsamples.
  exists ([Z.shiftr seq 8; Z.land seq 255] ++ tobytes bo samples).
  unfold pack, unpack.
  rewrite (struct_pack_in_range seq Hseq).
  split; [ reflexivity | ].
  change (firstn 2 ([Z.shiftr seq 8; Z.land seq 255] ++ tobytes bo samples))
    with [Z.shiftr seq 8; Z.land seq 255].
  change (skipn 2 ([Z.shiftr seq 8; Z.land seq 255] ++ tobytes bo samples))
    with (tobytes bo samples).
  rewrite (struct_unpack_pack seq _ (struct_pack_in_range seq Hseq)).
  now rewrite frombuffer_tobytes.
Qed.

Lemma unpack_pack_roundtrip_witness :
  exists packed_chunk,
    pack little 65535 [1; -1; -32768; 32767] = Ok packed_chunk /\
    unpack little packed_chunk = Ok (65535, [1; -1; -32768; 32767]).
Proof.
  apply (unpack_pack_roundtrip little 65535 [1; -1; -32768; 32767]).
  - unfold is_uint16; lia.
  - repeat constructor; unfold is_int16; lia.
Defined.

(** C7. [unpack] raises on every datagram shorter than two bytes
    ([struct.error]) and on every datagram whose payload after the two
    header bytes has an odd number of bytes ([ValueError]); it returns no
    value in either case. *)
Theorem unpack_rejects_malformed (bo : byteorder) (packed_chunk : bytes) :
  (length packed_chunk < 2)%nat \/
    Nat.odd (length packed_chunk - 2) = true ->
  exists e, unpack bo packed_chunk = Raise e /\ MalformedPacket e.
Proof.
  intros Hbad; unfold unpack, MalformedPacket.
  destruct packed_chunk as [ | b0 [ | b1 payload ] ].
  - exists struct_error; simpl; auto.
  - exists struct_error; simpl; auto.
  - destruct Hbad as [Hshort | Hodd]; [ simpl in Hshort; lia | ].
    exists ValueError; split; [ | auto ].
    change (firstn 2 (b0 :: b1 :: payload)) with [b0; b1].
    change (skipn 2 (b0 :: b1 :: payload)) with payload.
    cbn [struct_unpack_H].
    unfold frombuffer.
    replace (length (b0 :: b1 :: payload) - 2)%nat with (length payload) in Hodd
      by (simpl; lia).
    rewrite <- Nat.negb_odd, Hodd. reflexivity.
Qed.

Lemma unpack_rejects_malformed_witness :
  exists e, unpack little [7] = Raise e /\ MalformedPacket e.
Proof.
  apply (unpack_rejects_malformed little [7]).
  left; simpl; lia.
Defined.

(** C10. [pack] raises [struct.error] for every sequence number outside
    [0, 65536), and returns a datagram whose header is the number itself
    for every sequence number inside; it never wraps or truncates. *)
Theorem pack_checks_sequence_range (bo : byteorder) (seq : Z) (samples : chunk) :
  (is_uint16 seq /\
   exists packed_chunk,
     pack bo seq samples = Ok packed_chunk /\
     struct_unpack_H (firstn 2 packed_chunk) = Ok seq) \/
  (~ is_uint16 seq /\ pack bo seq samples = Raise struct_error).
Proof.
  unfold pack.
  destruct (decide (0 <= seq < 65536)) as [Hin | Hout].
  - left; split; [ exact Hin | ].
    rewrite (struct_pack_in_range seq Hin).
    eexists; split; [ reflexivity | ].
    change (firstn 2 ([Z.shiftr seq 8; Z.land seq 255] ++ tobytes bo samples))
      with [Z.shiftr seq 8; Z.land seq 255].
    apply struct_unpack_pack, struct_pack_in_range, Hin.
  - right; split; [ exact Hout | ].
    now rewrite (struct_pack_out_of_range seq Hout).
Qed.

(** ** Methods and the invariant *)

Ltac unfold_methods :=
  unfold callback, bufferRegister._record_IO_and_play,
    buffer2Register._record_IO_and_play, bufferRegister.play_chunk,
    buffer2Register.play_chunk, run_first, run_begin, receive_and_buffer,
    buffer_chunk, unbuffer_next_chunk, adjust_playback_speed,
    log_buffer_status, next_chunk_number, advance_played, send,
    bind, lift, gets, modify, ret in *.

Ltac run_methods :=
  unfold_methods; simpl; repeat case_match; simplify_eq; simpl.

Lemma cells_positive (cfg : config) :
  well_formed cfg -> 0 < cells_in_buffer cfg.
Proof.
  unfold well_formed, cells_in_buffer; lia.
Qed.

Lemma CHUNK_NUMBERS_value : CHUNK_NUMBERS = 32768.
Proof. reflexivity. Qed.

Ltac solve_invariant :=
  unfold ring_invariant in *; simpl;
  rewrite ?length_insert, ?CHUNK_NUMBERS_value in *;
  repeat split;
  try (apply Z.mod_pos_bound; lia);
  try tauto; try lia.

Lemma init_invariant (cfg : config) :
  well_formed cfg -> ring_invariant cfg (init cfg).
Proof.
  intros Hwf; pose proof (cells_positive cfg Hwf).
  unfold ring_invariant, init; simpl.
  rewrite repeat_length, CHUNK_NUMBERS_value; lia.
Qed.

Lemma receive_and_buffer_invariant (cfg : config) (p : bytes) (s : Buffering) :
  ring_invariant cfg s ->
  ring_invariant cfg (fst (receive_and_buffer cfg p s)).
Proof.
  intros Hinv; run_methods; solve_invariant.
Qed.

Lemma run_first_invariant (cfg : config) (p : bytes) (s : Buffering) :
  well_formed cfg ->
  ring_invariant cfg s ->
  ring_invariant cfg (fst (run_first cfg p s)).
Proof.
  intros Hwf Hinv; pose proof (cells_positive cfg Hwf).
  run_methods; solve_invariant.
Qed.

Lemma callback_invariant (m : source_file) (cfg : config) (outcome : result unit)
    (ADC DAC : frame) (s : Buffering) :
  well_formed cfg ->
  ring_invariant cfg s ->
  ring_invariant cfg (fst (callback m cfg outcome ADC DAC s)).
Proof.
  intros Hwf Hinv; pose proof (cells_positive cfg Hwf).
  destruct m; run_methods; solve_invariant.
Qed.

Lemma step_invariant (m : source_file) (cfg : config) (sys : system) (ev : event) :
  well_formed cfg ->
  ring_invariant cfg (self sys) ->
  ring_invariant cfg (self (step m cfg sys ev)).
Proof.
  intros Hwf Hinv; destruct ev as [ outcome ADC DAC | p | ]; simpl.
  - now apply callback_invariant.
  - destruct (seeded sys).
    + now apply receive_and_buffer_invariant.
    + now apply run_first_invariant.
  - exact Hinv.
Qed.

Lemma fold_step_invariant (m : source_file) (cfg : config) (evs : list event) :
  well_formed cfg ->
  forall sys,
    ring_invariant cfg (self sys) ->
    ring_invariant cfg (self (fold_left (step m cfg) evs sys)).
Proof.
  intros Hwf; induction evs as [ | ev evs IH ]; intros sys Hinv; simpl.
  - exact Hinv.
  - apply IH. now apply step_invariant.
Qed.

Lemma run_trace_invariant (m : source_file) (cfg : config) (evs : list event) :
  well_formed cfg ->
  ring_invariant cfg (self (run_trace m cfg evs)).
Proof.
  intros Hwf; unfold run_trace.
  apply fold_step_invariant; [ exact Hwf | ].
  unfold start, run_begin, modify; simpl.
  pose proof (init_invariant cfg Hwf) as Hinit.
  pose proof (cells_positive cfg Hwf).
  solve_invariant.
Qed.

(** ** Occupancy *)

(** C2. After any interleaving of callbacks (reads), datagrams (writes) and
    log ticks, counter wrap-around included, the number of chunks both
    [log_buffer_status] and [adjust_playback_speed] compute lies in
    [0, cells_in_buffer); the cursors it is computed from stay in their
    own ranges. *)
Theorem occupancy_in_range (m : source_file) (cfg : config) (evs : list event) :
  well_formed cfg ->
  let s := self (run_trace m cfg evs) in
  0 <= chunks_in_buffer cfg s < cells_in_buffer cfg /\
  snd (log_buffer_status cfg s) = Ok (chunks_in_buffer cfg s) /\
  0 <= played_chunk_number s < cells_in_buffer cfg /\
  0 <= chunk_number s < CHUNK_NUMBERS.
Proof.
  intros Hwf s.
  pose proof (cells_positive cfg Hwf) as Hcells.
  destruct (run_trace_invariant m cfg evs Hwf) as (_ & Hplayed & Hnumber).
  fold s in Hplayed, Hnumber.
  split; [ | split; [ reflexivity | split; assumption ] ].
  unfold chunks_in_buffer. apply Z.mod_pos_bound; exact Hcells.
Qed.

Lemma occupancy_in_range_witness :
  let cfg := {| byte_order := little; chunks_to_buffer := 5;
                frames_per_chunk := 2; NUMBER_OF_CHANNELS := 1 |} in
  let evs := [Callback (Ok tt) [[1]; [2]] [[0]; [0]];
              Datagram [0; 100; 3; 0; 4; 0];
              Callback (Ok tt) [[5]; [6]] [[0]; [0]]] in
  let s := self (run_trace Register2 cfg evs) in
  0 <= chunks_in_buffer cfg s < cells_in_buffer cfg /\
  snd (log_buffer_status cfg s) = Ok (chunks_in_buffer cfg s) /\
  0 <= played_chunk_number s < cells_in_buffer cfg /\
  0 <= chunk_number s < CHUNK_NUMBERS.
Proof.
  intros cfg evs.
  apply (occupancy_in_range Register2 cfg evs).
  unfold well_formed, cfg; simpl; lia.
Defined.

(** ** Seeding *)

Lemma buffer_chunk_ok (cfg : config) (n : Z) (c : chunk) (s : Buffering) :
  well_formed cfg ->
  ring_invariant cfg s ->
  buffer_chunk cfg n c s
    = (set_buffer (<[Z.to_nat (n mod cells_in_buffer cfg) := c]> (_buffer s)) s,
       Ok tt).
Proof.
  intros Hwf (Hlen & _); pose proof (cells_positive cfg Hwf) as Hcells.
  unfold buffer_chunk.
  pose proof (Z.mod_pos_bound n (cells_in_buffer cfg) Hcells).
  destruct (decide _) as [ | Hout ]; [ reflexivity | ].
  exfalso; apply Hout; rewrite Hlen; lia.
Qed.

Lemma run_first_played (cfg : config) (p : bytes) (first : Z) (c : chunk)
    (s : Buffering) :
  well_formed cfg ->
  ring_invariant cfg s ->
  unpack (byte_order cfg) p = Ok (first, c) ->
  played_chunk_number (fst (run_first cfg p s))
    = (first - chunks_to_buffer cfg) mod cells_in_buffer cfg.
Proof.
  intros Hwf Hinv Hp.
  unfold run_first, receive_and_buffer, bind, lift, modify, ret.
  rewrite Hp, (buffer_chunk_ok cfg first c s Hwf Hinv).
  reflexivity.
Qed.

(** C4. The first datagram of a run, whatever callbacks ran before it,
    leaves the play cursor at
    [(first_received_chunk_number - chunks_to_buffer) mod cells_in_buffer];
    with 5 chunks to buffer (10 cells) and first number 100 that is 5. *)
Theorem seeding_sets_play_cursor (m : source_file) (cfg : config)
    (evs : list event) (p : bytes) (first : Z) (c : chunk) :
  well_formed cfg ->
  seeded (run_trace m cfg evs) = false ->
  unpack (byte_order cfg) p = Ok (first, c) ->
  let s' := self (step m cfg (run_trace m cfg evs) (Datagram p)) in
  played_chunk_number s'
    = (first - chunks_to_buffer cfg) mod cells_in_buffer cfg /\
  (chunks_to_buffer cfg = 5 -> first = 100 ->
   cells_in_buffer cfg = 10 /\ played_chunk_number s' = 5).
Proof.
  intros Hwf Hseed Hp s'.
  assert (Hplayed : played_chunk_number s'
            = (first - chunks_to_buffer cfg) mod cells_in_buffer cfg).
  { unfold s'; simpl. rewrite Hseed.
    apply (run_first_played cfg p first c); auto using run_trace_invariant. }
  split; [ exact Hplayed | ].
  intros H5 H100; rewrite Hplayed.
  unfold cells_in_buffer; rewrite H5, H100. split; reflexivity.
Qed.

Lemma seeding_sets_play_cursor_witness :
  let cfg := {| byte_order := little; chunks_to_buffer := 5;
                frames_per_chunk := 2; NUMBER_OF_CHANNELS := 1 |} in
  let evs := [Callback (Ok tt) [[1]; [2]] [[0]; [0]]] in
  let s' := self (step Register cfg (run_trace Register cfg evs)
                    (Datagram [0; 100; 3; 0; 4; 0])) in
  played_chunk_number s' = (100 - 5) mod 10 /\
  (5 = 5 -> 100 = 100 -> 10 = 10 /\ played_chunk_number s' = 5).
Proof.
  intros cfg evs.
  apply (seeding_sets_play_cursor Register cfg evs [0; 100; 3; 0; 4; 0] 100 [3; 4]).
  - unfold well_formed, cfg; simpl; lia.
  - reflexivity.
  - reflexivity.
Defined.

(** ** Where the occupancy comes from *)

Lemma receive_keeps_counters (cfg : config) (p : bytes) (s : Buffering) :
  chunk_number (fst (receive_and_buffer cfg p s)) = chunk_number s /\
  played_chunk_number (fst (receive_and_buffer cfg p s)) = played_chunk_number s.
Proof.
  run_methods; auto.
Qed.

(** C5 (the code departs from the claim). [receive_and_buffer] never
    stores the sequence number it received, so the occupancy the code
    computes does not depend on the receive loop after seeding: with 5
    chunks to buffer and datagrams 100, 101, 102, 103 received and no
    callback yet, the code reports [(0 - 5) mod 10 = 5], the local send
    counter being 0, where the last received number gives
    [(103 - 5) mod 10 = 8]. *)
Theorem occupancy_uses_send_counter :
  let cfg := {| byte_order := little; chunks_to_buffer := 5;
                frames_per_chunk := 2; NUMBER_OF_CHANNELS := 1 |} in
  let evs := [Datagram [0; 100; 1; 0; 2; 0]; Datagram [0; 101; 3; 0; 4; 0];
              Datagram [0; 102; 5; 0; 6; 0]; Datagram [0; 103; 7; 0; 8; 0]] in
  let s := self (run_trace Register2 cfg evs) in
  (forall p, chunks_in_buffer cfg (fst (receive_and_buffer cfg p s))
             = chunks_in_buffer cfg s) /\
  chunk_number s = 0 /\
  played_chunk_number s = 5 /\
  chunks_in_buffer cfg s = 5 /\
  (103 - played_chunk_number s) mod cells_in_buffer cfg = 8.
Proof.
  intros cfg evs s.
  split; [ | repeat split ].
  intros p; unfold chunks_in_buffer.
  destruct (receive_keeps_counters cfg p s) as [-> ->]; reflexivity.
Qed.

(** ** The rate controller *)

Lemma adjust_playback_speed_total (cfg : config) (s : Buffering) :
  snd (adjust_playback_speed cfg s) = Ok tt /\
  _buffer (fst (adjust_playback_speed cfg s)) = _buffer s /\
  chunk_number (fst (adjust_playback_speed cfg s)) = chunk_number s /\
  played_chunk_number (fst (adjust_playback_speed cfg s)) = played_chunk_number s /\
  sock_sent (fst (adjust_playback_speed cfg s)) = sock_sent s.
Proof.
  unfold adjust_playback_speed, modify; simpl.
  repeat case_match; simpl; auto.
Qed.

(** C3, as the code has it.  The controller never raises and sets exactly
    one speed: 1.05 when the occupancy is at least [chunks_to_buffer - 2];
    below that threshold 0.95 at occupancy 3, 0.80 at 2, 0.60 at 1 and
    1.00 at every other occupancy.  The rows are tried in this order and
    the first that applies wins, so occupancy 0 gets 1.00 only when
    [chunks_to_buffer] exceeds 2. *)
Theorem rate_controller_first_match (cfg : config) (s : Buffering) :
  let o := chunks_in_buffer cfg s in
  let target := chunks_to_buffer cfg in
  let r := playback_speed (fst (adjust_playback_speed cfg s)) in
  snd (adjust_playback_speed cfg s) = Ok tt /\
  (o >= target - 2 -> r = speed_105) /\
  (o < target - 2 -> o = 3 -> r = speed_095) /\
  (o < target - 2 -> o = 2 -> r = speed_080) /\
  (o < target - 2 -> o = 1 -> r = speed_060) /\
  (o < target - 2 -> o <> 3 -> o <> 2 -> o <> 1 -> r = speed_100).
Proof.
  intros o target r.
  split; [ apply adjust_playback_speed_total | ].
  unfold r, adjust_playback_speed, modify; simpl.
  fold o; fold target.
  destruct (Z.geb_spec o (target - 2)) as [Hge | Hlt].
  { repeat split; intros; simpl; try reflexivity; lia. }
  destruct (Z.eqb_spec o 3) as [H3 | H3].
  { repeat split; intros; simpl; try reflexivity; lia. }
  destruct (Z.eqb_spec o 2) as [H2 | H2].
  { repeat split; intros; simpl; try reflexivity; lia. }
  destruct (Z.eqb_spec o 1) as [H1 | H1].
  { repeat split; intros; simpl; try reflexivity; lia. }
  repeat split; intros; simpl; try reflexivity; lia.
Qed.

Lemma rate_controller_first_match_witness :
  let cfg := {| byte_order := little; chunks_to_buffer := 7;
                frames_per_chunk := 2; NUMBER_OF_CHANNELS := 1 |} in
  let s := set_chunk_number 3 (init cfg) in
  playback_speed (fst (adjust_playback_speed cfg s)) = speed_095.
Proof.
  intros cfg s.
  destruct (rate_controller_first_match cfg s) as (_ & _ & H095 & _).
  apply H095; vm_compute; reflexivity.
Defined.

(** C3, counterexample.  With 2 chunks to buffer (4 cells) the occupancy of
    a fresh object is 0, the threshold [chunks_to_buffer - 2] is 0 as well,
    and the controller sets 1.05, not the 1.00 the claim gives to
    occupancy 0. *)
Lemma rate_controller_occupancy_zero :
  let cfg := {| byte_order := little; chunks_to_buffer := 2;
                frames_per_chunk := 2; NUMBER_OF_CHANNELS := 1 |} in
  let s := init cfg in
  0 <= chunks_in_buffer cfg s < cells_in_buffer cfg /\
  chunks_in_buffer cfg s = 0 /\
  playback_speed (fst (adjust_playback_speed cfg s)) = speed_105 /\
  ~ (playback_speed (fst (adjust_playback_speed cfg s)) == speed_100)%Q.
Proof.
  intros cfg s.
  split; [ vm_compute; split; [ discriminate | reflexivity ] | ].
  split; [ reflexivity | ].
  split; [ reflexivity | ].
  intros H; vm_compute in H; discriminate.
Qed.

(** ** Rendering a chunk *)

Lemma rows_of_length (n w : nat) (c : chunk) : length (rows_of n w c) = n.
Proof.
  revert c; induction n as [ | n IH ]; intros c; simpl; [ | rewrite IH ]; reflexivity.
Qed.

Lemma rows_of_shape (n w : nat) (c : chunk) :
  length c = (n * w)%nat -> map length (rows_of n w c) = repeat w n.
Proof.
  revert c; induction n as [ | n IH ]; intros c Hlen; simpl; [ reflexivity | ].
  rewrite length_firstn, IH.
  - f_equal; lia.
  - rewrite length_skipn; lia.
Qed.

Lemma silence_rows (w : nat) (rows : frame) :
  Forall (fun row => length row = w) rows ->
  map (map (fun _ : Z => 0)) rows = repeat (repeat 0 w) (length rows).
Proof.
  induction 1 as [ | row rows Hrow _ IH ]; simpl; [ reflexivity | ].
  rewrite IH; f_equal.
  subst w; clear; induction row; simpl; congruence.
Qed.

Lemma shape_rows (w n : nat) (rows : frame) :
  map length rows = repeat w n ->
  length rows = n /\ Forall (fun row => length row = w) rows.
Proof.
  revert n; induction rows as [ | row rows IH ]; intros [ | n ] Hshape;
    simpl in Hshape; try discriminate.
  - split; [ reflexivity | constructor ].
  - injection Hshape as Hrow Hrest.
    destruct (IH n Hrest) as [Hlen Hall].
    split; [ simpl; congruence | constructor; assumption ].
Qed.

(** For every frame count up to 2048 and each of the five speeds, Python's
    [int] of the double-precision product is the truncation of the exact
    product. *)
Lemma binary64_agrees :
  forallb binary64_agrees_at (map Z.of_nat (seq 0 (Z.to_nat 2049))) = true.
Proof.
  vm_compute. reflexivity.
Qed.

Lemma int_floor (q : Q) : (0 <= q)%Q -> int q = Qfloor q.
Proof.
  destruct q as [num den]; unfold Qle, int, Qfloor; simpl; intros Hq.
  apply Z.quot_div_nonneg; lia.
Qed.

Lemma assign_rows_same_shape (k : nat) (DAC src : frame) :
  map length DAC = map length src ->
  assign_rows k DAC src = Ok (firstn k src ++ skipn k DAC).
Proof.
  intros Hshape; unfold assign_rows, same_shape.
  rewrite bool_decide_eq_true_2; [ reflexivity | ].
  rewrite <- !firstn_map. now rewrite Hshape.
Qed.

Lemma fill_rows (F C k : nat) (DAC rows : frame) :
  map length DAC = repeat C F ->
  map length rows = repeat C F ->
  (if decide (k < F)%nat
   then zero_rows k (firstn k rows ++ skipn k DAC)
   else firstn k rows ++ skipn k DAC)
  = firstn (Nat.min F k) rows ++ repeat (repeat 0 C) (F - Nat.min F k).
Proof.
  intros HDAC Hrows.
  destruct (shape_rows C F DAC HDAC) as [HlenD HallD].
  destruct (shape_rows C F rows Hrows) as [HlenR _].
  destruct (decide (k < F)%nat) as [Hlt | Hge].
  - replace (Nat.min F k) with k by lia.
    unfold zero_rows.
    assert (Hk : length (firstn k rows) = k) by (rewrite length_firstn; lia).
    rewrite firstn_app, skipn_app, Hk, Nat.sub_diag.
    change (firstn 0 (skipn k DAC)) with (@nil (list Z)).
    change (skipn 0 (skipn k DAC)) with (skipn k DAC).
    rewrite firstn_all2 by lia.
    rewrite (skipn_all2 (n := k) (firstn k rows)) by lia.
    rewrite !app_nil_r; simpl; f_equal.
    rewrite (silence_rows C).
    + rewrite length_skipn, HlenD; reflexivity.
    + rewrite <- (firstn_skipn k DAC) in HallD.
      apply Forall_app in HallD; tauto.
  - replace (Nat.min F k) with F by lia.
    rewrite Nat.sub_diag; simpl.
    rewrite skipn_all2 by lia.
    rewrite !firstn_all2 by lia. reflexivity.
Qed.

Lemma play_chunk_renders (cfg : config) (DAC : frame) (c : chunk) (s : Buffering) :
  length c = (frames_per_chunk cfg * NUMBER_OF_CHANNELS cfg)%nat ->
  map length DAC = repeat (NUMBER_OF_CHANNELS cfg) (frames_per_chunk cfg) ->
  let F := frames_per_chunk cfg in
  let k := Nat.min F (buffer2Register.adjusted_frames cfg (playback_speed s)) in
  buffer2Register.play_chunk cfg DAC c s
  = (fst (advance_played cfg s),
     Ok (firstn k (rows_of F (NUMBER_OF_CHANNELS cfg) c)
           ++ repeat (repeat 0 (NUMBER_OF_CHANNELS cfg)) (F - k))).
Proof.
  intros Hc HDAC F k.
  pose proof (rows_of_shape F (NUMBER_OF_CHANNELS cfg) c Hc) as Hrows.
  unfold buffer2Register.play_chunk, advance_played, bind, lift, gets, modify, ret.
  unfold reshape; rewrite decide_True by exact Hc.
  cbn [playback_speed set_played_chunk_number].
  rewrite assign_rows_same_shape by (rewrite HDAC; symmetry; exact Hrows).
  cbn [fst]. f_equal. f_equal.
  apply (fill_rows F (NUMBER_OF_CHANNELS cfg)); assumption.
Qed.

Lemma controller_speed_cases (cfg : config) (s : Buffering) :
  In (playback_speed (fst (adjust_playback_speed cfg s)))
     [speed_105; speed_095; speed_080; speed_060; speed_100].
Proof.
  unfold adjust_playback_speed, modify; simpl.
  repeat case_match; simpl; tauto.
Qed.

Lemma controller_speed_nonneg (cfg : config) (s : Buffering) :
  (0 <= playback_speed (fst (adjust_playback_speed cfg s)))%Q.
Proof.
  pose proof (controller_speed_cases cfg s) as Hcases.
  set (r := playback_speed (fst (adjust_playback_speed cfg s))) in *.
  cbn [In] in Hcases.
  destruct Hcases as [<- | [<- | [<- | [<- | [<- | []]]]]]; discriminate.
Qed.

Lemma adjusted_frames_floor (cfg : config) (r : Q) :
  (0 <= r)%Q ->
  buffer2Register.adjusted_frames cfg r
  = Z.to_nat (Qfloor (inject_Z (Z.of_nat (frames_per_chunk cfg)) * r)).
Proof.
  intros Hr; unfold buffer2Register.adjusted_frames.
  rewrite int_floor; [ reflexivity | ].
  apply Qmult_le_0_compat; [ | exact Hr ].
  unfold Qle; simpl; lia.
Qed.

Lemma concat_rows_prefix (n w k : nat) (c : chunk) :
  (k <= n)%nat ->
  length c = (n * w)%nat ->
  concat (firstn k (rows_of n w c)) = firstn (k * w) c.
Proof.
  revert k c; induction n as [ | n IH ]; intros k c Hk Hlen.
  - replace k with 0%nat by lia; reflexivity.
  - destruct k as [ | k ]; [ reflexivity | ].
    cbn [rows_of firstn concat].
    rewrite IH by (rewrite ?length_skipn; lia).
    replace (S k * w)%nat with (w + k * w)%nat by lia.
    rewrite <- (firstn_skipn w c) at 3.
    rewrite firstn_app, length_firstn.
    replace (w + k * w - Nat.min w (length c))%nat with (k * w)%nat by lia.
    rewrite firstn_firstn.
    replace (Nat.min (w + k * w) w) with w by lia.
    reflexivity.
Qed.

Lemma concat_silence (w n : nat) :
  concat (repeat (repeat 0 w) n) = repeat 0 (n * w).
Proof.
  induction n as [ | n IH ]; simpl; [ reflexivity | ].
  now rewrite IH, repeat_app.
Qed.

(** C6, as the code has it.  For the speed [r] the rate controller has just
    set, a due chunk of the configured size and a device frame of the same
    shape, [play_chunk] returns the first [k] frames of the chunk followed
    by silence, where [k] is the integer part (floor, not the nearest
    integer) of [frames_per_chunk * r], at most [frames_per_chunk]; in
    samples, the first [k * NUMBER_OF_CHANNELS] samples of the chunk and
    zeros after them. *)
Theorem play_chunk_fill_ratio (cfg : config) (s : Buffering) (DAC : frame)
    (c : chunk) :
  length c = (frames_per_chunk cfg * NUMBER_OF_CHANNELS cfg)%nat ->
  map length DAC = repeat (NUMBER_OF_CHANNELS cfg) (frames_per_chunk cfg) ->
  let F := frames_per_chunk cfg in
  let C := NUMBER_OF_CHANNELS cfg in
  let s1 := fst (adjust_playback_speed cfg s) in
  let r := playback_speed s1 in
  let k := Nat.min F (Z.to_nat (Qfloor (inject_Z (Z.of_nat F) * r))) in
  exists out,
    snd (buffer2Register.play_chunk cfg DAC c s1) = Ok out /\
    out = firstn k (rows_of F C c) ++ repeat (repeat 0 C) (F - k) /\
    concat out = firstn (k * C) c ++ repeat 0 ((F - k) * C).
Proof.
  intros Hc HDAC F C s1 r k.
  rewrite (play_chunk_renders cfg DAC c s1 Hc HDAC).
  rewrite (adjusted_frames_floor cfg (playback_speed s1))
    by apply controller_speed_nonneg.
  fold F C r k.
  eexists; split; [ reflexivity | split; [ reflexivity | ] ].
  rewrite concat_app, concat_silence.
  rewrite (concat_rows_prefix F C k c) by (auto; lia).
  reflexivity.
Qed.

Lemma play_chunk_fill_ratio_witness :
  let cfg := {| byte_order := little; chunks_to_buffer := 7;
                frames_per_chunk := 4; NUMBER_OF_CHANNELS := 2 |} in
  let s := set_chunk_number 3 (init cfg) in
  let s1 := fst (adjust_playback_speed cfg s) in
  let c := [1; 2; 3; 4; 5; 6; 7; 8] in
  let DAC := [[9; 9]; [9; 9]; [9; 9]; [9; 9]] in
  exists out,
    snd (buffer2Register.play_chunk cfg DAC c s1) = Ok out /\
    out = [[1; 2]; [3; 4]; [5; 6]; [0; 0]] /\
    concat out = [1; 2; 3; 4; 5; 6; 0; 0].
Proof.
  intros cfg s s1 c DAC.
  exact (play_chunk_fill_ratio cfg s DAC c eq_refl eq_refl).
Defined.

(** C6, counterexample.  With 1024 frames per chunk and the speed 0.95 the
    controller sets at occupancy 3, [round (1024 * 0.95)] is 973 but
    [play_chunk] copies 972 frames: frame 972 of the output is silence
    where the claim has the 973rd frame of the chunk. *)
Lemma play_chunk_truncates_not_rounds :
  let cfg := {| byte_order := little; chunks_to_buffer := 7;
                frames_per_chunk := 1024; NUMBER_OF_CHANNELS := 1 |} in
  let s := set_chunk_number 3 (init cfg) in
  let s1 := fst (adjust_playback_speed cfg s) in
  let r := playback_speed s1 in
  let c := map Z.of_nat (seq 1 1024) in
  let DAC := repeat [0] 1024 in
  r = speed_095 /\
  round_nearest (inject_Z 1024 * r) = 973 /\
  rendered_as_stated cfg r c !! 972%nat = Some [973] /\
  (exists out,
     snd (buffer2Register.play_chunk cfg DAC c s1) = Ok out /\
     out !! 972%nat = Some [0]) /\
  snd (buffer2Register.play_chunk cfg DAC c s1) <> Ok (rendered_as_stated cfg r c).
Proof.
  intros cfg s s1 r c DAC.
  assert (Hstated : rendered_as_stated cfg r c !! 972%nat = Some [973])
    by (vm_compute; reflexivity).
  assert (Hcode : exists out,
            snd (buffer2Register.play_chunk cfg DAC c s1) = Ok out /\
            out !! 972%nat = Some [0])
    by (eexists; split; vm_compute; reflexivity).
  split; [ reflexivity | ].
  split; [ vm_compute; reflexivity | ].
  split; [ exact Hstated | ].
  split; [ exact Hcode | ].
  destruct Hcode as (out & Hout & Hrow).
  intros Heq; congruence.
Qed.

(** ** The callback: transmit, then play *)

Lemma pack_next_number (bo : byteorder) (n : Z) (c : chunk) :
  pack bo ((n + 1) mod CHUNK_NUMBERS) c
  = Ok ([Z.shiftr ((n + 1) mod CHUNK_NUMBERS) 8;
         Z.land ((n + 1) mod CHUNK_NUMBERS) 255] ++ tobytes bo c).
Proof.
  unfold pack. rewrite struct_pack_in_range; [ reflexivity | ].
  pose proof (Z.mod_pos_bound (n + 1) CHUNK_NUMBERS eq_refl) as Hn.
  rewrite CHUNK_NUMBERS_value in *. unfold is_uint16; lia.
Qed.

Lemma plain_play_chunk_renders (cfg : config) (DAC : frame) (c : chunk)
    (s : Buffering) :
  length c = (frames_per_chunk cfg * NUMBER_OF_CHANNELS cfg)%nat ->
  map length DAC = repeat (NUMBER_OF_CHANNELS cfg) (frames_per_chunk cfg) ->
  bufferRegister.play_chunk cfg DAC c s
  = (fst (advance_played cfg s),
     Ok (rows_of (frames_per_chunk cfg) (NUMBER_OF_CHANNELS cfg) c)).
Proof.
  intros Hc HDAC.
  pose proof (rows_of_shape _ (NUMBER_OF_CHANNELS cfg) c Hc) as Hrows.
  pose proof (rows_of_length (frames_per_chunk cfg) (NUMBER_OF_CHANNELS cfg) c) as Hlen.
  destruct (shape_rows _ _ DAC HDAC) as [HlenD _].
  unfold bufferRegister.play_chunk, advance_played, bind, lift, modify.
  unfold reshape; rewrite decide_True by exact Hc.
  rewrite assign_rows_same_shape by (rewrite HDAC; symmetry; exact Hrows).
  rewrite skipn_all2, firstn_all2, app_nil_r by lia.
  reflexivity.
Qed.

Lemma adjust_keeps_due_chunk (cfg : config) (s : Buffering) :
  unbuffer_next_chunk cfg (fst (adjust_playback_speed cfg s))
  = (fst (adjust_playback_speed cfg s), snd (unbuffer_next_chunk cfg s)).
Proof.
  destruct (adjust_playback_speed_total cfg s) as (_ & Hbuf & _ & Hplayed & _).
  unfold unbuffer_next_chunk. rewrite Hbuf, Hplayed.
  destruct (_ !! _); reflexivity.
Qed.

Lemma plain_callback_steps (cfg : config) (outcome : result unit)
    (ADC DAC : frame) (s : Buffering) :
  bufferRegister._record_IO_and_play cfg outcome ADC DAC s
  = match outcome with
    | Ok _ =>
        bind (unbuffer_next_chunk cfg) (bufferRegister.play_chunk cfg DAC)
          (transmitted cfg ADC s)
    | Raise e => (numbered s, Raise e)
    end.
Proof.
  unfold bufferRegister._record_IO_and_play, next_chunk_number, send.
  unfold bind, lift, gets, modify; simpl.
  rewrite pack_next_number.
  destruct outcome; reflexivity.
Qed.

Lemma rated_callback_steps (cfg : config) (outcome : result unit)
    (ADC DAC : frame) (s : Buffering) :
  buffer2Register._record_IO_and_play cfg outcome ADC DAC s
  = match outcome with
    | Ok _ =>
        bind (unbuffer_next_chunk cfg) (buffer2Register.play_chunk cfg DAC)
          (fst (adjust_playback_speed cfg (transmitted cfg ADC s)))
    | Raise e => (numbered s, Raise e)
    end.
Proof.
  unfold buffer2Register._record_IO_and_play, next_chunk_number, send.
  unfold bind, lift, gets, modify; simpl.
  rewrite pack_next_number.
  destruct outcome; reflexivity.
Qed.

(** C8, as the code has it.  In both modules the callback forms the
    datagram (which never raises: the number is below [CHUNK_NUMBERS]),
    sends it, and only then plays.  When the send returns, the due chunk
    is rendered and the play cursor moves on; when the send raises, the
    exception leaves the callback at once: nothing is rendered and the
    play cursor and the ring stay as they were. *)
Theorem callback_plays_after_send (m : source_file) (cfg : config)
    (outcome : result unit) (ADC DAC : frame) (s : Buffering) (c : chunk) :
  well_formed cfg ->
  _buffer s !! Z.to_nat (played_chunk_number s mod cells_in_buffer cfg) = Some c ->
  length c = (frames_per_chunk cfg * NUMBER_OF_CHANNELS cfg)%nat ->
  map length DAC = repeat (NUMBER_OF_CHANNELS cfg) (frames_per_chunk cfg) ->
  let out := callback m cfg outcome ADC DAC s in
  is_ok (pack (byte_order cfg) ((chunk_number s + 1) mod CHUNK_NUMBERS)
           (concat ADC)) = true /\
  (outcome = Ok tt -> step4_completed cfg s out) /\
  (forall e, outcome = Raise e ->
     snd out = Raise e /\
     ~ step4_completed cfg s out /\
     played_chunk_number (fst out) = played_chunk_number s /\
     _buffer (fst out) = _buffer s).
Proof.
  intros Hwf Hdue Hc HDAC out.
  split; [ now rewrite pack_next_number | ].
  split.
  - intros ->. unfold step4_completed, out.
    destruct m; unfold callback.
    + rewrite plain_callback_steps.
      unfold bind, unbuffer_next_chunk, transmitted, numbered; simpl.
      rewrite Hdue, plain_play_chunk_renders by assumption.
      split; reflexivity.
    + rewrite rated_callback_steps.
      destruct (adjust_playback_speed_total cfg (transmitted cfg ADC s))
        as (_ & _ & _ & Hplayed & _).
      assert (Hnext : unbuffer_next_chunk cfg
                        (fst (adjust_playback_speed cfg (transmitted cfg ADC s)))
                      = (fst (adjust_playback_speed cfg (transmitted cfg ADC s)),
                         Ok c)).
      { rewrite adjust_keeps_due_chunk. f_equal.
        unfold unbuffer_next_chunk, transmitted, numbered; simpl.
        now rewrite Hdue. }
      unfold bind. rewrite Hnext.
      rewrite play_chunk_renders by assumption.
      split; [ reflexivity | ].
      unfold advance_played, modify; cbn [fst played_chunk_number set_played_chunk_number].
      now rewrite Hplayed.
  - intros e ->. unfold step4_completed, out.
    destruct m; unfold callback;
      rewrite ?plain_callback_steps, ?rated_callback_steps; simpl;
      (split; [ reflexivity | split; [ | split; reflexivity ] ]);
      intros [Hok _]; discriminate.
Qed.

Lemma callback_plays_after_send_witness :
  let cfg := {| byte_order := little; chunks_to_buffer := 5;
                frames_per_chunk := 2; NUMBER_OF_CHANNELS := 1 |} in
  let s := init cfg in
  let out := callback Register2 cfg (Ok tt) [[1]; [2]] [[9]; [9]] s in
  is_ok (pack (byte_order cfg) ((chunk_number s + 1) mod CHUNK_NUMBERS)
           (concat [[1]; [2]])) = true /\
  (Ok tt = Ok tt -> step4_completed cfg s out) /\
  (forall e, Ok tt = Raise e ->
     snd out = Raise e /\
     ~ step4_completed cfg s out /\
     played_chunk_number (fst out) = played_chunk_number s /\
     _buffer (fst out) = _buffer s).
Proof.
  intros cfg s.
  apply (callback_plays_after_send Register2 cfg (Ok tt) [[1]; [2]] [[9]; [9]]
           s [0; 0]).
  - unfold well_formed, cfg; simpl; lia.
  - reflexivity.
  - reflexivity.
  - reflexivity.
Defined.

(** C8, counterexample.  A socket failure in [send] ends the callback of
    either module with that exception before the due chunk is read: step 4
    does not complete for the period. *)
Lemma send_failure_aborts_playback :
  let cfg := {| byte_order := little; chunks_to_buffer := 5;
                frames_per_chunk := 2; NUMBER_OF_CHANNELS := 1 |} in
  let s := init cfg in
  let out := callback Register cfg (Raise OSError) [[1]; [2]] [[9]; [9]] s in
  let out2 := callback Register2 cfg (Raise OSError) [[1]; [2]] [[9]; [9]] s in
  (snd out = Raise OSError /\
   played_chunk_number (fst out) = 0 /\
   ~ step4_completed cfg s out) /\
  (snd out2 = Raise OSError /\
   played_chunk_number (fst out2) = 0 /\
   ~ step4_completed cfg s out2).
Proof.
  intros cfg s out out2.
  split; (split; [ reflexivity | split; [ reflexivity | ] ]);
    intros [Hok _]; discriminate.
Qed.

(** ** Sequence numbers on the wire *)

Lemma callback_counts (m : source_file) (cfg : config) (outcome : result unit)
    (ADC DAC : frame) (s : Buffering) :
  chunk_number (fst (callback m cfg outcome ADC DAC s))
  = (chunk_number s + 1) mod CHUNK_NUMBERS.
Proof.
  destruct m; unfold callback;
    rewrite ?plain_callback_steps, ?rated_callback_steps;
    unfold transmitted, numbered;
    run_methods; reflexivity.
Qed.

Lemma callback_transmits (m : source_file) (cfg : config) (ADC DAC : frame)
    (s : Buffering) :
  sock_sent (fst (callback m cfg (Ok tt) ADC DAC s))
  = outgoing cfg ADC s :: sock_sent s.
Proof.
  destruct m; unfold callback;
    rewrite ?plain_callback_steps, ?rated_callback_steps;
    unfold transmitted, numbered;
    run_methods; reflexivity.
Qed.

Lemma outgoing_unpack (cfg : config) (ADC : frame) (s : Buffering) :
  unpack (byte_order cfg) (outgoing cfg ADC s)
  = Ok ((chunk_number s + 1) mod CHUNK_NUMBERS,
        samples_of (byte_order cfg) (tobytes (byte_order cfg) (concat ADC))).
Proof.
  unfold unpack, outgoing.
  set (n := (chunk_number s + 1) mod CHUNK_NUMBERS).
  change (firstn 2 ([Z.shiftr n 8; Z.land n 255] ++ ?t))
    with [Z.shiftr n 8; Z.land n 255].
  change (skipn 2 ([Z.shiftr n 8; Z.land n 255]
                     ++ tobytes (byte_order cfg) (concat ADC)))
    with (tobytes (byte_order cfg) (concat ADC)).
  cbn [struct_unpack_H]. rewrite split_join_byte.
  unfold frombuffer. now rewrite tobytes_length, even_double.
Qed.

Lemma callbacks_count (m : source_file) (cfg : config) (outcome : result unit)
    (ADC DAC : frame) (n : nat) (sys : system) :
  0 <= chunk_number (self sys) < CHUNK_NUMBERS ->
  chunk_number
    (self (fold_left (step m cfg) (repeat (Callback outcome ADC DAC) n) sys))
  = (chunk_number (self sys) + Z.of_nat n) mod CHUNK_NUMBERS.
Proof.
  revert sys; induction n as [ | n IH ]; intros sys Hrange.
  - simpl. rewrite Z.add_0_r, Z.mod_small; [ reflexivity | exact Hrange ].
  - cbn [repeat fold_left]. rewrite IH.
    + cbn [step self]. rewrite callback_counts.
      rewrite Zplus_mod_idemp_l. f_equal; lia.
    + cbn [step self]. rewrite callback_counts.
      apply Z.mod_pos_bound; reflexivity.
Qed.

(** C9, as the code has it.  Every callback replaces the local counter by
    its successor modulo [CHUNK_NUMBERS = 32768] and, when the socket
    accepts the datagram, that number is the one on the wire: the numbers
    transmitted stay in [0, 32768) and the successor of 32767 is 0. *)
Theorem wire_number_wraps_at_CHUNK_NUMBERS (m : source_file) (cfg : config)
    (ADC DAC : frame) (s : Buffering) :
  let s' := fst (callback m cfg (Ok tt) ADC DAC s) in
  let n' := (chunk_number s + 1) mod 32768 in
  chunk_number s' = n' /\
  0 <= n' < 32768 /\
  (exists packed_chunk samples,
     sock_sent s' = packed_chunk :: sock_sent s /\
     unpack (byte_order cfg) packed_chunk = Ok (n', samples)) /\
  (chunk_number s = 32767 -> n' = 0).
Proof.
  intros s' n'.
  split; [ apply callback_counts | ].
  split; [ apply Z.mod_pos_bound; reflexivity | ].
  split.
  - exists (outgoing cfg ADC s); eexists.
    split; [ apply callback_transmits | apply outgoing_unpack ].
  - intros H; unfold n'; rewrite H; reflexivity.
Qed.

Lemma wire_number_wraps_at_CHUNK_NUMBERS_witness :
  let cfg := {| byte_order := little; chunks_to_buffer := 5;
                frames_per_chunk := 2; NUMBER_OF_CHANNELS := 1 |} in
  let s := set_chunk_number 32767 (init cfg) in
  (chunk_number s + 1) mod 32768 = 0.
Proof.
  intros cfg s.
  destruct (wire_number_wraps_at_CHUNK_NUMBERS Register cfg [[1]; [2]] [[9]; [9]] s)
    as (_ & _ & _ & Hwrap).
  apply Hwrap; reflexivity.
Defined.

(** C9, counterexample.  After 32767 callbacks the counter is 32767; the
    next callback transmits 0, where a counter wrapping at 65536 transmits
    32768.  The counter therefore never reaches 65535. *)
Lemma wire_number_after_32767 :
  let cfg := {| byte_order := little; chunks_to_buffer := 5;
                frames_per_chunk := 2; NUMBER_OF_CHANNELS := 1 |} in
  let ADC := [[1]; [2]] in
  let DAC := [[9]; [9]] in
  let sys := run_trace Register2 cfg (repeat (Callback (Ok tt) ADC DAC) (Z.to_nat 32767)) in
  let s' := fst (callback Register2 cfg (Ok tt) ADC DAC (self sys)) in
  chunk_number (self sys) = 32767 /\
  next_wire_number_as_stated (chunk_number (self sys)) = 32768 /\
  (exists packed_chunk samples,
     sock_sent s' = packed_chunk :: sock_sent (self sys) /\
     unpack little packed_chunk = Ok (0, samples)) /\
  chunk_number s' <> next_wire_number_as_stated (chunk_number (self sys)).
Proof.
  intros cfg ADC DAC sys s'.
  assert (Hsys : chunk_number (self sys) = 32767).
  { unfold sys, run_trace. rewrite callbacks_count; [ reflexivity | ].
    split; [ reflexivity | reflexivity ]. }
  split; [ exact Hsys | ].
  split; [ rewrite Hsys; reflexivity | ].
  split.
  - exists (outgoing cfg ADC (self sys)); eexists.
    split; [ apply callback_transmits | ].
    change little with (byte_order cfg).
    rewrite outgoing_unpack, Hsys. reflexivity.
  - unfold s'. rewrite callback_counts, Hsys. discriminate.
Qed.

(** * Further properties of the code *)

(** ** The datagram format *)

Lemma byte_high_bits (b n : Z) : is_byte b -> 8 <= n -> Z.testbit b n = false.
Proof.
  unfold is_byte; intros Hb Hn.
  rewrite <- (Z.mod_small b (2 ^ 8)) by (change (2 ^ 8) with 256; lia).
  apply Z.mod_pow2_bits_high; lia.
Qed.

Lemma join_bytes_sum (hi lo : Z) :
  is_byte lo -> Z.lor (Z.shiftl hi 8) lo = hi * 256 + lo.
Proof.
  intros Hlo.
  assert (Hdisjoint : Z.land (Z.shiftl hi 8) lo = 0).
  { apply Z.bits_inj'; intros n Hn.
    rewrite Z.land_spec, Z.bits_0.
    destruct (Z.ltb_spec n 8).
    - rewrite Z.shiftl_spec_low by lia. reflexivity.
    - rewrite (byte_high_bits lo n) by (auto; lia). apply andb_false_r. }
  rewrite <- Z.lxor_lor by exact Hdisjoint.
  rewrite <- Z.add_nocarry_lxor by exact Hdisjoint.
  now rewrite Z.shiftl_mul_pow2 by lia.
Qed.

Lemma split_sum (hi lo : Z) :
  is_byte lo ->
  Z.shiftr (hi * 256 + lo) 8 = hi /\ Z.land (hi * 256 + lo) 255 = lo.
Proof.
  unfold is_byte; intros Hlo.
  rewrite Z.shiftr_div_pow2 by lia.
  change 255 with (Z.ones 8); rewrite Z.land_ones by lia.
  change (2 ^ 8) with 256.
  split.
  - symmetry; apply (Z.div_unique _ _ _ lo); lia.
  - symmetry; apply (Z.mod_unique _ _ hi); lia.
Qed.

Lemma struct_pack_unpack (hi lo : Z) :
  is_byte hi -> is_byte lo ->
  exists n, struct_unpack_H [hi; lo] = Ok n /\
            is_uint16 n /\ struct_pack_H n = Ok [hi; lo].
Proof.
  intros Hhi Hlo; exists (hi * 256 + lo).
  assert (Hrange : is_uint16 (hi * 256 + lo))
    by (unfold is_byte, is_uint16 in *; lia).
  split; [ simpl; now rewrite join_bytes_sum | ].
  split; [ exact Hrange | ].
  rewrite struct_pack_in_range by exact Hrange.
  destruct (split_sum hi lo Hlo) as [-> ->]. reflexivity.
Qed.

Lemma sample_bytes_roundtrip (bo : byteorder) (b0 b1 : Z) :
  is_byte b0 -> is_byte b1 ->
  is_int16 (sample_frombytes bo b0 b1) /\
  sample_tobytes bo (sample_frombytes bo b0 b1) = [b0; b1].
Proof.
  intros H0 H1.
  assert (Hcase : forall hi lo, is_byte hi -> is_byte lo ->
            let u := hi * 256 + lo in
            let s := if u <? 32768 then u else u - 65536 in
            is_int16 s /\ s mod 65536 = u).
  { intros hi lo Hhi Hlo u s; unfold is_byte, is_int16 in *; subst s.
    destruct (Z.ltb_spec u 32768); subst u.
    - split; [ lia | apply Z.mod_small; lia ].
    - split; [ lia | ].
      symmetry; apply (Z.mod_unique _ _ (-1)); lia. }
  unfold sample_frombytes, sample_tobytes; destruct bo.
  - rewrite join_bytes_sum by exact H0.
    destruct (Hcase b1 b0 H1 H0) as [Hs Hu]; cbv zeta in Hs, Hu.
    split; [ exact Hs | ].
    rewrite Hu. destruct (split_sum b1 b0 H0) as [-> ->]. reflexivity.
  - rewrite join_bytes_sum by exact H1.
    destruct (Hcase b0 b1 H0 H1) as [Hs Hu]; cbv zeta in Hs, Hu.
    split; [ exact Hs | ].
    rewrite Hu. destruct (split_sum b0 b1 H1) as [-> ->]. reflexivity.
Qed.

Lemma two_by_two (P : bytes -> Prop) :
  P [] ->
  (forall b0, P [b0]) ->
  (forall b0 b1 rest, P rest -> P (b0 :: b1 :: rest)) ->
  forall b, P b.
Proof.
  intros Hnil Hone Hstep b.
  enough (H : P b /\ forall b0, P (b0 :: b)) by apply H.
  induction b as [ | b1 rest [IH1 IH2] ]; split; auto.
Qed.

Lemma samples_of_length (bo : byteorder) (b : bytes) :
  Nat.even (length b) = true -> length b = (2 * length (samples_of bo b))%nat.
Proof.
  induction b as [ | b0 | b0 b1 rest IH ] using two_by_two; intros Heven.
  - reflexivity.
  - discriminate.
  - cbn [samples_of length]. rewrite (IH Heven). lia.
Qed.

Lemma tobytes_samples_of (bo : byteorder) (b : bytes) :
  Forall is_byte b ->
  Nat.even (length b) = true ->
  Forall is_int16 (samples_of bo b) /\ tobytes bo (samples_of bo b) = b.
Proof.
  induction b as [ | b0 | b0 b1 rest IH ] using two_by_two; intros Hbytes Heven.
  - split; [ constructor | reflexivity ].
  - discriminate.
  - inversion Hbytes as [ | ? ? H0 Htail ]; subst.
    inversion Htail as [ | ? ? H1 Hrest ]; subst.
    destruct (IH Hrest Heven) as [Hall Hback].
    destruct (sample_bytes_roundtrip bo b0 b1 H0 H1) as [Hs Hb].
    cbn [samples_of]. split; [ constructor; assumption | ].
    unfold tobytes in *; cbn [flat_map]. now rewrite Hb, Hback.
Qed.

(** X1. A datagram is two header bytes and two bytes per sample, and the
    header is the sequence number in network order whatever the byte order
    of the machine. *)
Theorem pack_length_and_header (bo : byteorder) (seq : Z) (samples : chunk)
    (packed_chunk : bytes) :
  pack bo seq samples = Ok packed_chunk ->
  length packed_chunk = (2 + 2 * length samples)%nat /\
  firstn 2 packed_chunk = [seq / 256; seq mod 256] /\
  skipn 2 packed_chunk = tobytes bo samples.
Proof.
  unfold pack, struct_pack_H.
  destruct ((0 <=? seq) && (seq <=? 65535)); [ | discriminate ].
  intros [= <-].
  rewrite Z.shiftr_div_pow2 by lia.
  change 255 with (Z.ones 8); rewrite Z.land_ones by lia.
  change (2 ^ 8) with 256.
  split; [ | split; reflexivity ].
  rewrite ?length_app; simpl; rewrite tobytes_length; lia.
Qed.

Lemma pack_length_and_header_witness :
  let samples : chunk := [-5; 5] in
  let packed_chunk : bytes := [1; 44; 251; 255; 5; 0] in
  length packed_chunk = (2 + 2 * length samples)%nat /\
  firstn 2 packed_chunk = [300 / 256; 300 mod 256] /\
  skipn 2 packed_chunk = tobytes little samples.
Proof.
  intros samples packed_chunk.
  apply (pack_length_and_header little 300 [-5; 5] [1; 44; 251; 255; 5; 0]).
  reflexivity.
Defined.

(** X2. [unpack] returns a value exactly for the datagrams of at least two
    bytes and even length, and then returns one sample for each pair of
    payload bytes; a bare header decodes to an empty chunk. *)
Theorem unpack_succeeds_iff (bo : byteorder) (packed_chunk : bytes) :
  ((2 <= length packed_chunk)%nat /\ Nat.even (length packed_chunk) = true ->
   exists n c, unpack bo packed_chunk = Ok (n, c)) /\
  (forall n c, unpack bo packed_chunk = Ok (n, c) ->
     (2 <= length packed_chunk)%nat /\
     Nat.even (length packed_chunk) = true /\
     length packed_chunk = (2 + 2 * length c)%nat).
Proof.
  unfold unpack.
  destruct packed_chunk as [ | b0 [ | b1 payload ] ].
  - split; [ simpl; lia | discriminate ].
  - split; [ simpl; lia | discriminate ].
  - change (firstn 2 (b0 :: b1 :: payload)) with [b0; b1].
    change (skipn 2 (b0 :: b1 :: payload)) with payload.
    cbn [struct_unpack_H]. unfold frombuffer.
    change (Nat.even (length (b0 :: b1 :: payload)))
      with (Nat.even (length payload)).
    split.
    + intros [_ Heven]. rewrite Heven. eauto.
    + intros n c. destruct (Nat.even (length payload)) eqn:Heven;
        [ | discriminate ].
      intros [= _ <-].
      split; [ simpl; lia | split; [ reflexivity | ] ].
      simpl. rewrite (samples_of_length bo payload Heven). lia.
Qed.

Lemma unpack_succeeds_iff_witness :
  exists n c, unpack big [0; 9] = Ok (n, c).
Proof.
  apply (unpack_succeeds_iff big [0; 9]).
  split; [ simpl; lia | reflexivity ].
Defined.

(** X3. Whatever arrives, a decoded sequence number is in the 16-bit range
    and the decoded samples are signed 16-bit values, and packing them
    again gives back the datagram byte for byte. *)
Theorem pack_unpack_roundtrip (bo : byteorder) (packed_chunk : bytes)
    (n : Z) (c : chunk) :
  Forall is_byte packed_chunk ->
  unpack bo packed_chunk = Ok (n, c) ->
  is_uint16 n /\ Forall is_int16 c /\ pack bo n c = Ok packed_chunk.
Proof.
  intros Hbytes; unfold unpack.
  destruct packed_chunk as [ | b0 [ | b1 payload ] ]; try discriminate.
  change (firstn 2 (b0 :: b1 :: payload)) with [b0; b1].
  change (skipn 2 (b0 :: b1 :: payload)) with payload.
  inversion Hbytes as [ | ? ? H0 Htail ]; subst.
  inversion Htail as [ | ? ? H1 Hpayload ]; subst.
  destruct (struct_pack_unpack b0 b1 H0 H1) as (m & Hm' & Hm & Hpack).
  cbn [struct_unpack_H] in Hm' |- *. injection Hm' as <-.
  unfold frombuffer.
  destruct (Nat.even (length payload)) eqn:Heven; [ | discriminate ].
  intros [= <- <-].
  destruct (tobytes_samples_of bo payload Hpayload Heven) as [Hall Hback].
  split; [ exact Hm | split; [ exact Hall | ] ].
  unfold pack. now rewrite Hpack, Hback.
Qed.

Lemma pack_unpack_roundtrip_witness :
  is_uint16 258 /\ Forall is_int16 [-2; 3] /\
  pack little 258 [-2; 3] = Ok [1; 2; 254; 255; 3; 0].
Proof.
  apply (pack_unpack_roundtrip little [1; 2; 254; 255; 3; 0] 258 [-2; 3]).
  - repeat constructor; unfold is_byte; lia.
  - reflexivity.
Defined.

(** ** The ring: writes and reads *)

Lemma slot_in_ring (cfg : config) (n : Z) (s : Buffering) :
  well_formed cfg ->
  ring_invariant cfg s ->
  (Z.to_nat (n mod cells_in_buffer cfg) < length (_buffer s))%nat.
Proof.
  intros Hwf (Hlen & _); pose proof (cells_positive cfg Hwf) as Hcells.
  pose proof (Z.mod_pos_bound n (cells_in_buffer cfg) Hcells).
  rewrite Hlen; lia.
Qed.

Lemma buffer_chunk_state (cfg : config) (n : Z) (c : chunk) (s : Buffering) :
  fst (buffer_chunk cfg n c s)
  = set_buffer (<[Z.to_nat (n mod cells_in_buffer cfg) := c]> (_buffer s)) s.
Proof.
  unfold buffer_chunk.
  destruct (decide _) as [Hin | Hout]; [ reflexivity | ].
  rewrite list_insert_ge by lia. destruct s; reflexivity.
Qed.

(** X4. In a state that satisfies the ring invariant, [buffer_chunk] never
    raises; afterwards the slot of the number holds the chunk, every other
    slot holds what it held, and cursors, counter and speed are as before. *)
Theorem buffer_chunk_writes_one_slot (cfg : config) (n : Z) (c : chunk)
    (s : Buffering) :
  well_formed cfg ->
  ring_invariant cfg s ->
  let s' := fst (buffer_chunk cfg n c s) in
  let i := Z.to_nat (n mod cells_in_buffer cfg) in
  snd (buffer_chunk cfg n c s) = Ok tt /\
  _buffer s' !! i = Some c /\
  (forall j, j <> i -> _buffer s' !! j = _buffer s !! j) /\
  length (_buffer s') = length (_buffer s) /\
  chunk_number s' = chunk_number s /\
  played_chunk_number s' = played_chunk_number s /\
  playback_speed s' = playback_speed s.
Proof.
  intros Hwf Hinv s' i.
  pose proof (slot_in_ring cfg n s Hwf Hinv) as Hslot.
  unfold s'; rewrite (buffer_chunk_ok cfg n c s Hwf Hinv); simpl.
  fold i in Hslot |- *.
  split; [ reflexivity | ].
  split; [ now apply list_lookup_insert_eq | ].
  split; [ intros j Hj; apply list_lookup_insert_ne; congruence | ].
  split; [ apply length_insert | auto ].
Qed.

Lemma buffer_chunk_writes_one_slot_witness :
  let cfg := {| byte_order := little; chunks_to_buffer := 5;
                frames_per_chunk := 2; NUMBER_OF_CHANNELS := 1 |} in
  let s' := fst (buffer_chunk cfg 27 [4; 5] (init cfg)) in
  _buffer s' !! 7%nat = Some [4; 5].
Proof.
  intros cfg s'.
  destruct (buffer_chunk_writes_one_slot cfg 27 [4; 5] (init cfg))
    as (_ & Hslot & _).
  - unfold well_formed, cfg; simpl; lia.
  - apply init_invariant. unfold well_formed, cfg; simpl; lia.
  - exact Hslot.
Defined.



(** X6. Writes to two different slots do not disturb each other: they
    leave the same ring in either order. *)
Theorem buffer_chunk_commutes (cfg : config) (n n' : Z) (c c' : chunk)
    (s : Buffering) :
  well_formed cfg ->
  n mod cells_in_buffer cfg <> n' mod cells_in_buffer cfg ->
  fst (buffer_chunk cfg n' c' (fst (buffer_chunk cfg n c s)))
  = fst (buffer_chunk cfg n c (fst (buffer_chunk cfg n' c' s))).
Proof.
  intros Hwf Hslots; pose proof (cells_positive cfg Hwf) as Hcells.
  pose proof (Z.mod_pos_bound n (cells_in_buffer cfg) Hcells).
  pose proof (Z.mod_pos_bound n' (cells_in_buffer cfg) Hcells).
  assert (Hne : Z.to_nat (n mod cells_in_buffer cfg)
                <> Z.to_nat (n' mod cells_in_buffer cfg)) by lia.
  rewrite !buffer_chunk_state.
  unfold set_buffer; simpl. f_equal. apply list_insert_insert_ne; congruence.
Qed.

Lemma buffer_chunk_commutes_witness :
  let cfg := {| byte_order := little; chunks_to_buffer := 5;
                frames_per_chunk := 2; NUMBER_OF_CHANNELS := 1 |} in
  fst (buffer_chunk cfg 16 [3; 4] (fst (buffer_chunk cfg 5 [1; 2] (init cfg))))
  = fst (buffer_chunk cfg 5 [1; 2] (fst (buffer_chunk cfg 16 [3; 4] (init cfg)))).
Proof.
  intros cfg.
  apply (buffer_chunk_commutes cfg 5 16 [1; 2] [3; 4] (init cfg)).
  - unfold well_formed, cfg; simpl; lia.
  - discriminate.
Defined.

(** ** The callback and the ring over a run *)

Lemma callback_keeps_buffer (m : source_file) (cfg : config)
    (outcome : result unit) (ADC DAC : frame) (s : Buffering) :
  _buffer (fst (callback m cfg outcome ADC DAC s)) = _buffer s.
Proof.
  destruct m; unfold callback;
    rewrite ?plain_callback_steps, ?rated_callback_steps;
    unfold transmitted, numbered;
    run_methods; reflexivity.
Qed.

Lemma callback_sent_log (m : source_file) (cfg : config)
    (outcome : result unit) (ADC DAC : frame) (s : Buffering) :
  sock_sent (fst (callback m cfg outcome ADC DAC s))
  = if is_ok outcome then outgoing cfg ADC s :: sock_sent s else sock_sent s.
Proof.
  destruct m; unfold callback;
    rewrite ?plain_callback_steps, ?rated_callback_steps;
    unfold transmitted, numbered;
    run_methods; reflexivity.
Qed.

Lemma play_chunk_state (m : source_file) (cfg : config) (DAC : frame)
    (c : chunk) (s : Buffering) :
  fst (match m with
       | Register => bufferRegister.play_chunk cfg DAC c s
       | Register2 => buffer2Register.play_chunk cfg DAC c s
       end)
  = fst (advance_played cfg s).
Proof.
  destruct m; run_methods; reflexivity.
Qed.

Lemma due_chunk_exists (cfg : config) (s : Buffering) :
  well_formed cfg ->
  ring_invariant cfg s ->
  exists c, unbuffer_next_chunk cfg s = (s, Ok c).
Proof.
  intros Hwf Hinv.
  pose proof (slot_in_ring cfg (played_chunk_number s) s Hwf Hinv) as Hslot.
  unfold unbuffer_next_chunk.
  destruct (_buffer s !! _) as [c | ] eqn:Hdue; [ eauto | ].
  apply lookup_ge_None in Hdue; lia.
Qed.

Lemma callback_advances (m : source_file) (cfg : config) (ADC DAC : frame)
    (s : Buffering) :
  well_formed cfg ->
  ring_invariant cfg s ->
  played_chunk_number (fst (callback m cfg (Ok tt) ADC DAC s))
  = (played_chunk_number s + 1) mod cells_in_buffer cfg.
Proof.
  intros Hwf Hinv.
  destruct (due_chunk_exists cfg s Hwf Hinv) as [c Hdue].
  assert (Hsame : snd (unbuffer_next_chunk cfg (transmitted cfg ADC s)) = Ok c).
  { unfold unbuffer_next_chunk in *; unfold transmitted, numbered; simpl.
    destruct (_buffer s !! _); [ | discriminate ]. now inversion Hdue. }
  destruct m; unfold callback.
  - rewrite plain_callback_steps. unfold bind.
    destruct (unbuffer_next_chunk cfg (transmitted cfg ADC s)) as [s2 r] eqn:Hnext.
    assert (s2 = transmitted cfg ADC s)
      by (unfold unbuffer_next_chunk in Hnext; destruct (_ !! _); now inversion Hnext).
    simpl in Hsame; subst r s2.
    rewrite (play_chunk_state Register). reflexivity.
  - rewrite rated_callback_steps. unfold bind.
    rewrite adjust_keeps_due_chunk, Hsame.
    rewrite (play_chunk_state Register2).
    destruct (adjust_playback_speed_total cfg (transmitted cfg ADC s))
      as (_ & _ & _ & Hplayed & _).
    unfold advance_played, modify; cbn [fst played_chunk_number set_played_chunk_number].
    now rewrite Hplayed.
Qed.

(** X7. In every state a run reaches, whatever the datagrams received,
    neither the write into the ring nor the read of the due chunk raises
    [IndexError]: the ring keeps its [cells_in_buffer] slots. *)
Theorem ring_access_never_fails (m : source_file) (cfg : config)
    (evs : list event) (n : Z) (c : chunk) :
  well_formed cfg ->
  let s := self (run_trace m cfg evs) in
  length (_buffer s) = Z.to_nat (cells_in_buffer cfg) /\
  snd (buffer_chunk cfg n c s) = Ok tt /\
  exists due, snd (unbuffer_next_chunk cfg s) = Ok due.
Proof.
  intros Hwf s.
  pose proof (run_trace_invariant m cfg evs Hwf) as Hinv; fold s in Hinv.
  split; [ apply Hinv | ].
  split; [ now rewrite buffer_chunk_ok | ].
  destruct (due_chunk_exists cfg s Hwf Hinv) as [due Hdue].
  exists due. now rewrite Hdue.
Qed.

Lemma ring_access_never_fails_witness :
  let cfg := {| byte_order := little; chunks_to_buffer := 5;
                frames_per_chunk := 2; NUMBER_OF_CHANNELS := 1 |} in
  let evs := [Datagram [255; 255; 1; 0; 2; 0]; Callback (Ok tt) [[1]; [2]] [[0]; [0]]] in
  let s := self (run_trace Register cfg evs) in
  length (_buffer s) = Z.to_nat (cells_in_buffer cfg) /\
  snd (buffer_chunk cfg 65535 [7; 7] s) = Ok tt /\
  exists due, snd (unbuffer_next_chunk cfg s) = Ok due.
Proof.
  intros cfg evs.
  apply (ring_access_never_fails Register cfg evs 65535 [7; 7]).
  unfold well_formed, cfg; simpl; lia.
Defined.

Lemma lookup_repeat {A} (x : A) (n k : nat) :
  (k < n)%nat -> repeat x n !! k = Some x.
Proof.
  revert k; induction n as [ | n IH ]; intros k Hk; [ lia | ].
  destruct k as [ | k ]; [ reflexivity | ].
  simpl. apply IH; lia.
Qed.

Lemma step_keeps_slot (m : source_file) (cfg : config) (k : nat) (sys : system)
    (ev : event) :
  ~ writes_slot cfg k ev ->
  _buffer (self (step m cfg sys ev)) !! k = _buffer (self sys) !! k.
Proof.
  intros Hev; destruct ev as [ outcome ADC DAC | p | ]; cbn [step self].
  - now rewrite callback_keeps_buffer.
  - cbn [writes_slot] in Hev.
    assert (Hreceive : _buffer (fst (receive_and_buffer cfg p (self sys))) !! k
                       = _buffer (self sys) !! k).
    { unfold receive_and_buffer, bind, lift, ret.
      destruct (unpack (byte_order cfg) p) as [[n c] | e]; [ | reflexivity ].
      destruct (buffer_chunk cfg n c (self sys)) as [s1 r] eqn:Hwrite.
      assert (Hs1 : s1 = fst (buffer_chunk cfg n c (self sys)))
        by now rewrite Hwrite.
      rewrite buffer_chunk_state in Hs1.
      assert (_buffer s1 !! k = _buffer (self sys) !! k)
        by (subst s1; simpl; apply list_lookup_insert_ne; congruence).
      destruct r; assumption. }
    destruct (seeded sys); [ exact Hreceive | ].
    unfold run_first, bind, modify.
    destruct (receive_and_buffer cfg p (self sys)) as [s1 [first | e]];
      exact Hreceive.
  - reflexivity.
Qed.

(** X8. Underrun.  A slot on which no received datagram has landed still
    holds the silent chunk [__init__] put there, after any run; when the
    play cursor reaches it, the due chunk is that silence and reading it
    does not fail. *)
Theorem unwritten_slot_is_silent (m : source_file) (cfg : config)
    (evs : list event) (k : nat) :
  well_formed cfg ->
  (Z.of_nat k < cells_in_buffer cfg) ->
  Forall (fun ev => ~ writes_slot cfg k ev) evs ->
  let s := self (run_trace m cfg evs) in
  _buffer s !! k = Some (zero_chunk cfg) /\
  (played_chunk_number s = Z.of_nat k ->
   unbuffer_next_chunk cfg s = (s, Ok (zero_chunk cfg))).
Proof.
  intros Hwf Hk Hevs s.
  pose proof (cells_positive cfg Hwf) as Hcells.
  assert (Hslot : _buffer s !! k = Some (zero_chunk cfg)).
  { unfold s, run_trace.
    assert (Hstart : _buffer (self (start cfg)) !! k = Some (zero_chunk cfg)).
    { unfold start, run_begin, modify, init; simpl.
      apply lookup_repeat. lia. }
    revert Hstart; generalize (start cfg).
    induction Hevs as [ | ev evs Hev _ IH ]; intros sys Hsys; simpl.
    - exact Hsys.
    - apply IH. now rewrite step_keeps_slot. }
  split; [ exact Hslot | ].
  intros Hplayed; unfold unbuffer_next_chunk.
  rewrite Hplayed, Z.mod_small, Nat2Z.id, Hslot by lia. reflexivity.
Qed.

Lemma unwritten_slot_is_silent_witness :
  let cfg := {| byte_order := little; chunks_to_buffer := 5;
                frames_per_chunk := 2; NUMBER_OF_CHANNELS := 1 |} in
  let evs := [Datagram [0; 100; 1; 0; 2; 0]; Callback (Ok tt) [[1]; [2]] [[0]; [0]]] in
  let s := self (run_trace Register2 cfg evs) in
  _buffer s !! 6%nat = Some (zero_chunk cfg) /\
  (played_chunk_number s = Z.of_nat 6 ->
   unbuffer_next_chunk cfg s = (s, Ok (zero_chunk cfg))).
Proof.
  intros cfg evs.
  apply (unwritten_slot_is_silent Register2 cfg evs 6).
  - unfold well_formed, cfg; simpl; lia.
  - reflexivity.
  - repeat constructor; simpl; auto; discriminate.
Defined.

Lemma sent_callback_is_callback (evs : list event) :
  Forall is_sent_callback evs -> Forall is_callback evs.
Proof.
  induction 1 as [ | ev evs Hev _ IH ]; constructor; [ | exact IH ].
  destruct ev as [ [ | ] ? ? | | ]; simpl in *; tauto.
Qed.

Lemma fold_callbacks_buffer (m : source_file) (cfg : config) (evs : list event) :
  Forall is_callback evs ->
  forall sys,
    _buffer (self (fold_left (step m cfg) evs sys)) = _buffer (self sys).
Proof.
  induction 1 as [ | ev evs Hev _ IH ]; intros sys; simpl; [ reflexivity | ].
  rewrite IH. destruct ev; try contradiction.
  cbn [step self]. apply callback_keeps_buffer.
Qed.

Lemma fold_callbacks_played (m : source_file) (cfg : config) (evs : list event) :
  well_formed cfg ->
  Forall is_sent_callback evs ->
  forall sys,
    ring_invariant cfg (self sys) ->
    played_chunk_number (self (fold_left (step m cfg) evs sys))
    = (played_chunk_number (self sys) + Z.of_nat (length evs))
        mod cells_in_buffer cfg.
Proof.
  intros Hwf; induction 1 as [ | ev evs Hev _ IH ]; intros sys Hinv.
  - simpl. rewrite Z.add_0_r. symmetry; apply Z.mod_small, Hinv.
  - cbn [fold_left length].
    rewrite IH by now apply step_invariant.
    destruct ev as [ [ [] | ] ADC DAC | | ]; try contradiction.
    cbn [step self]. rewrite callback_advances by assumption.
    rewrite Zplus_mod_idemp_l. f_equal; lia.
Qed.


(** X9. The receive loop does not compare the payload with the chunk size:
    a datagram of another size is written into the ring, and the callback
    that finds it due raises [ValueError] from [reshape] in either module,
    after its own datagram went out and the play cursor moved past the bad
    chunk. *)
Theorem wrong_size_chunk_fails_at_playback (m : source_file) (cfg : config)
    (p : bytes) (n : Z) (c : chunk) (ADC DAC : frame) (s : Buffering) :
  well_formed cfg ->
  ring_invariant cfg s ->
  unpack (byte_order cfg) p = Ok (n, c) ->
  n mod cells_in_buffer cfg = played_chunk_number s ->
  length c <> (frames_per_chunk cfg * NUMBER_OF_CHANNELS cfg)%nat ->
  let s1 := fst (receive_and_buffer cfg p s) in
  let out := callback m cfg (Ok tt) ADC DAC s1 in
  snd (receive_and_buffer cfg p s) = Ok n /\
  snd out = Raise ValueError /\
  played_chunk_number (fst out)
    = (played_chunk_number s + 1) mod cells_in_buffer cfg /\
  sock_sent (fst out) = outgoing cfg ADC s :: sock_sent s.
Proof.
  intros Hwf Hinv Hp Hdue Hsize s1 out.
  pose proof (slot_in_ring cfg n s Hwf Hinv) as Hslot.
  assert (Hreceive : receive_and_buffer cfg p s
            = (set_buffer (<[Z.to_nat (n mod cells_in_buffer cfg) := c]> (_buffer s)) s,
               Ok n)).
  { unfold receive_and_buffer, bind, lift, ret.
    now rewrite Hp, (buffer_chunk_ok cfg n c s Hwf Hinv). }
  assert (Hinv1 : ring_invariant cfg (fst (receive_and_buffer cfg p s)))
    by (apply receive_and_buffer_invariant; exact Hinv).
  subst out s1. rewrite Hreceive in *; cbn [fst snd] in *.
  set (s1' := set_buffer _ s) in *.
  split; [ reflexivity | ].
  split; [ | split ].
  - assert (Hnext : snd (unbuffer_next_chunk cfg (transmitted cfg ADC s1')) = Ok c).
    { unfold unbuffer_next_chunk, transmitted, numbered, s1'; simpl.
      rewrite <- Hdue, Z.mod_mod by (pose proof (cells_positive cfg Hwf); lia).
      now rewrite list_lookup_insert_eq. }
    assert (Hbad : forall s0,
              snd (bufferRegister.play_chunk cfg DAC c s0) = Raise ValueError /\
              snd (buffer2Register.play_chunk cfg DAC c s0) = Raise ValueError).
    { intros s0. unfold bufferRegister.play_chunk, buffer2Register.play_chunk,
        advance_played, bind, lift, modify, reshape; simpl.
      rewrite decide_False by exact Hsize. split; reflexivity. }
    destruct m; unfold callback.
    + rewrite plain_callback_steps. unfold bind.
      destruct (unbuffer_next_chunk cfg (transmitted cfg ADC s1')) as [s2 r].
      simpl in Hnext; subst r. apply Hbad.
    + rewrite rated_callback_steps. unfold bind.
      rewrite adjust_keeps_due_chunk, Hnext. apply Hbad.
  - rewrite callback_advances by assumption. reflexivity.
  - rewrite callback_sent_log. reflexivity.
Qed.

Lemma wrong_size_chunk_fails_at_playback_witness :
  let cfg := {| byte_order := little; chunks_to_buffer := 5;
                frames_per_chunk := 2; NUMBER_OF_CHANNELS := 1 |} in
  let s := init cfg in
  let s1 := fst (receive_and_buffer cfg [0; 20; 1; 0] s) in
  let out := callback Register2 cfg (Ok tt) [[1]; [2]] [[0]; [0]] s1 in
  snd (receive_and_buffer cfg [0; 20; 1; 0] s) = Ok 20 /\
  snd out = Raise ValueError /\
  played_chunk_number (fst out)
    = (played_chunk_number s + 1) mod cells_in_buffer cfg /\
  sock_sent (fst out) = outgoing cfg [[1]; [2]] s :: sock_sent s.
Proof.
  intros cfg s.
  apply (wrong_size_chunk_fails_at_playback Register2 cfg [0; 20; 1; 0] 20 [1]).
  - unfold well_formed, cfg; simpl; lia.
  - apply init_invariant. unfold well_formed, cfg; simpl; lia.
  - reflexivity.
  - reflexivity.
  - discriminate.
Defined.

(** X10. Each callback whose datagram the socket accepts moves the play
    cursor one slot on, whether or not the due chunk could be rendered:
    after any number of them the cursor has advanced by that number modulo
    [cells_in_buffer]. *)
Theorem play_cursor_after_callbacks (m : source_file) (cfg : config)
    (evs : list event) (sys : system) :
  well_formed cfg ->
  ring_invariant cfg (self sys) ->
  Forall is_sent_callback evs ->
  played_chunk_number (self (fold_left (step m cfg) evs sys))
  = (played_chunk_number (self sys) + Z.of_nat (length evs))
      mod cells_in_buffer cfg.
Proof.
  intros Hwf Hinv Hevs. now apply fold_callbacks_played.
Qed.

Lemma play_cursor_after_callbacks_witness :
  let cfg := {| byte_order := little; chunks_to_buffer := 2;
                frames_per_chunk := 2; NUMBER_OF_CHANNELS := 1 |} in
  let cb := Callback (Ok tt) [[1]; [2]] [[0]] in
  played_chunk_number
    (self (fold_left (step Register cfg) [cb; cb; cb; cb; cb] (start cfg)))
  = (played_chunk_number (self (start cfg)) + Z.of_nat 5) mod cells_in_buffer cfg.
Proof.
  intros cfg cb.
  apply (play_cursor_after_callbacks Register cfg [cb; cb; cb; cb; cb] (start cfg)).
  - unfold well_formed, cfg; simpl; lia.
  - apply (run_trace_invariant Register cfg []). unfold well_formed, cfg; simpl; lia.
  - repeat constructor.
Defined.



Lemma callback_keeps_occupancy (m : source_file) (cfg : config)
    (ADC DAC : frame) (s : Buffering) :
  well_formed cfg ->
  ring_invariant cfg s ->
  chunk_number s + 1 < CHUNK_NUMBERS \/ (cells_in_buffer cfg | CHUNK_NUMBERS) ->
  chunks_in_buffer cfg (fst (callback m cfg (Ok tt) ADC DAC s))
  = chunks_in_buffer cfg s.
Proof.
  intros Hwf Hinv Hwrap; pose proof (cells_positive cfg Hwf) as Hcells.
  unfold chunks_in_buffer.
  rewrite callback_counts, callback_advances by assumption.
  rewrite Zminus_mod_idemp_r.
  destruct Hinv as (_ & _ & Hnumber).
  destruct Hwrap as [Hsmall | Hdivides].
  - rewrite (Z.mod_small (chunk_number s + 1) CHUNK_NUMBERS) by lia.
    f_equal; lia.
  - rewrite <- Zminus_mod_idemp_l.
    rewrite (Z.mod_mod_divide _ CHUNK_NUMBERS) by exact Hdivides.
    rewrite Zminus_mod_idemp_l. f_equal; lia.
Qed.


Lemma streaming_step_keeps_occupancy (m : source_file) (cfg : config)
    (sys : system) (ev : event) :
  well_formed cfg ->
  ring_invariant cfg (self sys) ->
  seeded sys = true ->
  is_streaming_event ev ->
  chunk_number (self sys) + 1 < CHUNK_NUMBERS
    \/ (cells_in_buffer cfg | CHUNK_NUMBERS) ->
  chunks_in_buffer cfg (self (step m cfg sys ev))
  = chunks_in_buffer cfg (self sys) /\
  seeded (step m cfg sys ev) = true /\
  chunk_number (self (step m cfg sys ev)) <= chunk_number (self sys) + 1.
Proof.
  intros Hwf Hinv Hseeded Hev Hwrap.
  destruct ev as [ [ [] | e ] ADC DAC | p | ]; try contradiction;
    cbn [step self seeded].
  - split; [ now apply callback_keeps_occupancy | ].
    split; [ exact Hseeded | ].
    rewrite callback_counts.
    destruct Hinv as (_ & _ & Hnumber).
    pose proof (Z.mod_le (chunk_number (self sys) + 1) CHUNK_NUMBERS
                  ltac:(lia) eq_refl).
    lia.
  - rewrite Hseeded.
    destruct (receive_keeps_counters cfg p (self sys)) as [Hnumber Hplayed].
    unfold chunks_in_buffer. rewrite Hnumber, Hplayed.
    split; [ reflexivity | split; [ reflexivity | lia ] ].
  - split; [ reflexivity | split; [ exact Hseeded | simpl; lia ] ].
Qed.

(** X12. Once the play cursor is seeded, the occupancy the code computes
    is frozen: callbacks whose datagrams are accepted move the send counter
    and the play cursor together, and received datagrams move neither.  It
    keeps its value over any such stream until the counter wraps at
    [CHUNK_NUMBERS], and over the wrap too when [cells_in_buffer] divides
    [CHUNK_NUMBERS]. *)
Theorem occupancy_frozen_while_streaming (m : source_file) (cfg : config)
    (evs : list event) (sys : system) :
  well_formed cfg ->
  ring_invariant cfg (self sys) ->
  seeded sys = true ->
  Forall is_streaming_event evs ->
  chunk_number (self sys) + Z.of_nat (length evs) < CHUNK_NUMBERS
    \/ (cells_in_buffer cfg | CHUNK_NUMBERS) ->
  chunks_in_buffer cfg (self (fold_left (step m cfg) evs sys))
  = chunks_in_buffer cfg (self sys).
Proof.
  intros Hwf Hinv Hseeded Hevs; revert sys Hinv Hseeded.
  induction Hevs as [ | ev evs Hev _ IH ]; intros sys Hinv Hseeded Hwrap;
    [ reflexivity | ].
  cbn [fold_left length] in *.
  assert (Hone : chunk_number (self sys) + 1 < CHUNK_NUMBERS
                 \/ (cells_in_buffer cfg | CHUNK_NUMBERS))
    by (destruct Hwrap as [Hsmall | Hdivides]; [ left; lia | right; exact Hdivides ]).
  destruct (streaming_step_keeps_occupancy m cfg sys ev Hwf Hinv Hseeded Hev Hone)
    as (Hsame & Hseeded' & Hnumber).
  rewrite IH; [ exact Hsame | now apply step_invariant | exact Hseeded' | ].
  destruct Hwrap as [Hsmall | Hdivides]; [ left; lia | right; exact Hdivides ].
Qed.

Lemma occupancy_frozen_while_streaming_witness :
  let cfg := {| byte_order := little; chunks_to_buffer := 5;
                frames_per_chunk := 2; NUMBER_OF_CHANNELS := 1 |} in
  let sys := run_trace Register2 cfg [Datagram [0; 100; 1; 0; 2; 0]] in
  let evs := [Callback (Ok tt) [[1]; [2]] [[0]; [0]];
              Datagram [0; 101; 3; 0; 4; 0];
              Datagram [0; 102; 5; 0; 6; 0];
              Callback (Ok tt) [[3]; [4]] [[0]; [0]];
              LogTick] in
  chunks_in_buffer cfg (self (fold_left (step Register2 cfg) evs sys))
  = chunks_in_buffer cfg (self sys).
Proof.
  intros cfg sys evs.
  apply (occupancy_frozen_while_streaming Register2 cfg evs sys).
  - unfold well_formed, cfg; simpl; lia.
  - apply run_trace_invariant. unfold well_formed, cfg; simpl; lia.
  - reflexivity.
  - repeat constructor.
  - left; reflexivity.
Defined.

(** X20. A callback whose datagram the socket refuses still consumes a
    sequence number but plays nothing, so it raises the computed occupancy
    by one slot (short of a wrap of the counter). *)
Theorem refused_datagram_raises_occupancy (m : source_file) (cfg : config)
    (e : exn) (ADC DAC : frame) (s : Buffering) :
  well_formed cfg ->
  ring_invariant cfg s ->
  chunk_number s + 1 < CHUNK_NUMBERS ->
  let s' := fst (callback m cfg (Raise e) ADC DAC s) in
  chunk_number s' = chunk_number s + 1 /\
  played_chunk_number s' = played_chunk_number s /\
  sock_sent s' = sock_sent s /\
  chunks_in_buffer cfg s' = (chunks_in_buffer cfg s + 1) mod cells_in_buffer cfg.
Proof.
  intros Hwf Hinv Hsmall s'; pose proof (cells_positive cfg Hwf) as Hcells.
  destruct Hinv as (_ & _ & Hnumber).
  assert (Hs' : s' = numbered s)
    by (unfold s'; destruct m; unfold callback;
        rewrite ?plain_callback_steps, ?rated_callback_steps; reflexivity).
  rewrite Hs'; unfold numbered, chunks_in_buffer; simpl.
  rewrite (Z.mod_small (chunk_number s + 1) CHUNK_NUMBERS) by lia.
  repeat split; try reflexivity.
  rewrite Zplus_mod_idemp_l. f_equal; lia.
Qed.

Lemma refused_datagram_raises_occupancy_witness :
  let cfg := {| byte_order := little; chunks_to_buffer := 5;
                frames_per_chunk := 2; NUMBER_OF_CHANNELS := 1 |} in
  let s := init cfg in
  let s' := fst (callback Register cfg (Raise OSError) [[1]; [2]] [[0]; [0]] s) in
  chunk_number s' = chunk_number s + 1 /\
  played_chunk_number s' = played_chunk_number s /\
  sock_sent s' = sock_sent s /\
  chunks_in_buffer cfg s' = (chunks_in_buffer cfg s + 1) mod cells_in_buffer cfg.
Proof.
  intros cfg s.
  apply (refused_datagram_raises_occupancy Register cfg OSError [[1]; [2]]
           [[0]; [0]] s).
  - unfold well_formed, cfg; simpl; lia.
  - apply init_invariant. unfold well_formed, cfg; simpl; lia.
  - reflexivity.
Defined.

(** X21. A datagram [unpack] rejects (shorter than two bytes, or with an
    odd payload) reaches nothing: the receive step raises with the ring,
    the cursors and the counter as they were, and if it is the first
    datagram of the run the play cursor is not seeded from it. *)
Theorem malformed_datagram_changes_nothing (m : source_file) (cfg : config)
    (sys : system) (p : bytes) :
  (length p < 2)%nat \/ Nat.odd (length p - 2) = true ->
  self (step m cfg sys (Datagram p)) = self sys /\
  exists e,
    MalformedPacket e /\
    receive_and_buffer cfg p (self sys) = (self sys, Raise e) /\
    run_first cfg p (self sys) = (self sys, Raise e).
Proof.
  intros Hbad.
  assert (Hraise : exists e, unpack (byte_order cfg) p = Raise e /\ MalformedPacket e).
  { unfold unpack, MalformedPacket.
    destruct p as [ | b0 [ | b1 payload ] ].
    - exists struct_error; simpl; auto.
    - exists struct_error; simpl; auto.
    - destruct Hbad as [Hshort | Hodd]; [ simpl in Hshort; lia | ].
      exists ValueError; split; [ | auto ].
      change (firstn 2 (b0 :: b1 :: payload)) with [b0; b1].
      change (skipn 2 (b0 :: b1 :: payload)) with payload.
      cbn [struct_unpack_H]. unfold frombuffer.
      replace (length (b0 :: b1 :: payload) - 2)%nat with (length payload) in Hodd
        by (simpl; lia).
      rewrite <- Nat.negb_odd, Hodd. reflexivity. }
  destruct Hraise as (e & Hp & He).
  assert (Hreceive : receive_and_buffer cfg p (self sys) = (self sys, Raise e))
    by (unfold receive_and_buffer, bind, lift; now rewrite Hp).
  assert (Hfirst : run_first cfg p (self sys) = (self sys, Raise e))
    by (unfold run_first, bind; now rewrite Hreceive).
  split.
  - cbn [step self]. destruct (seeded sys); [ now rewrite Hreceive | now rewrite Hfirst ].
  - exists e; auto.
Qed.

Lemma malformed_datagram_changes_nothing_witness :
  let cfg := {| byte_order := little; chunks_to_buffer := 5;
                frames_per_chunk := 2; NUMBER_OF_CHANNELS := 1 |} in
  self (step Register cfg (start cfg) (Datagram [0; 100; 1])) = self (start cfg).
Proof.
  intros cfg.
  apply (malformed_datagram_changes_nothing Register cfg (start cfg) [0; 100; 1]).
  right; reflexivity.
Defined.

(** X13. Seeding puts the play cursor [chunks_to_buffer] slots behind the
    first received chunk: if the next [chunks_to_buffer] events are
    callbacks whose datagrams are accepted, the chunk due after them is
    that first chunk. *)
Theorem first_chunk_due_after_target (m : source_file) (cfg : config)
    (p : bytes) (first : Z) (c : chunk) (evs : list event) (s : Buffering) :
  well_formed cfg ->
  ring_invariant cfg s ->
  unpack (byte_order cfg) p = Ok (first, c) ->
  Forall is_sent_callback evs ->
  Z.of_nat (length evs) = chunks_to_buffer cfg ->
  let s1 := fst (run_first cfg p s) in
  let s2 := self (fold_left (step m cfg) evs {| self := s1; seeded := true |}) in
  (first - played_chunk_number s1) mod cells_in_buffer cfg = chunks_to_buffer cfg /\
  unbuffer_next_chunk cfg s2 = (s2, Ok c).
Proof.
  intros Hwf Hinv Hp Hevs Hlen s1 s2.
  pose proof (cells_positive cfg Hwf) as Hcells.
  assert (Htarget : chunks_to_buffer cfg mod cells_in_buffer cfg = chunks_to_buffer cfg)
    by (apply Z.mod_small; unfold well_formed, cells_in_buffer in *; lia).
  assert (Hplayed1 : played_chunk_number s1
            = (first - chunks_to_buffer cfg) mod cells_in_buffer cfg)
    by now apply (run_first_played cfg p first c).
  assert (Hinv1 : ring_invariant cfg s1) by now apply run_first_invariant.
  assert (Hbuffer1 : _buffer s1
            = <[Z.to_nat (first mod cells_in_buffer cfg) := c]> (_buffer s)).
  { unfold s1, run_first, receive_and_buffer, bind, lift, modify, ret.
    now rewrite Hp, (buffer_chunk_ok cfg first c s Hwf Hinv). }
  split.
  - rewrite Hplayed1, Zminus_mod_idemp_r.
    replace (first - (first - chunks_to_buffer cfg)) with (chunks_to_buffer cfg) by lia.
    exact Htarget.
  - assert (Hplayed2 : played_chunk_number s2 = first mod cells_in_buffer cfg).
    { unfold s2. rewrite fold_callbacks_played by assumption.
      cbn [self]. rewrite Hplayed1, Hlen, Zplus_mod_idemp_l. f_equal; lia. }
    assert (Hbuffer2 : _buffer s2 = _buffer s1).
    { unfold s2. now rewrite fold_callbacks_buffer
        by now apply sent_callback_is_callback. }
    unfold unbuffer_next_chunk.
    rewrite Hplayed2, Z.mod_mod, Hbuffer2, Hbuffer1 by lia.
    rewrite list_lookup_insert_eq; [ reflexivity | ].
    now apply slot_in_ring.
Qed.

Lemma first_chunk_due_after_target_witness :
  let cfg := {| byte_order := little; chunks_to_buffer := 2;
                frames_per_chunk := 2; NUMBER_OF_CHANNELS := 1 |} in
  let cb := Callback (Ok tt) [[1]; [2]] [[0]; [0]] in
  let s1 := fst (run_first cfg [0; 100; 8; 0; 9; 0] (init cfg)) in
  let s2 := self (fold_left (step Register cfg) [cb; cb]
                    {| self := s1; seeded := true |}) in
  (100 - played_chunk_number s1) mod cells_in_buffer cfg = chunks_to_buffer cfg /\
  unbuffer_next_chunk cfg s2 = (s2, Ok [8; 9]).
Proof.
  intros cfg cb.
  apply (first_chunk_due_after_target Register cfg [0; 100; 8; 0; 9; 0] 100 [8; 9]
           [cb; cb] (init cfg)).
  - unfold well_formed, cfg; simpl; lia.
  - apply init_invariant. unfold well_formed, cfg; simpl; lia.
  - reflexivity.
  - repeat constructor.
  - reflexivity.
Defined.

(** ** Speeds and what reaches the device *)

Lemma adjusted_frames_fast (cfg : config) (q : Q) :
  (1 <= q)%Q -> (frames_per_chunk cfg <= buffer2Register.adjusted_frames cfg q)%nat.
Proof.
  destruct q as [a b]; unfold Qle; simpl; intros Hq.
  unfold buffer2Register.adjusted_frames, int; simpl.
  change (Z.pos (1 * b)) with (Z.pos b).
  rewrite Z.quot_div_nonneg by nia.
  assert (Z.of_nat (frames_per_chunk cfg)
          <= Z.of_nat (frames_per_chunk cfg) * a / Z.pos b)
    by (apply Z.div_le_lower_bound; nia).
  lia.
Qed.

Lemma adjusted_frames_slow (cfg : config) (q : Q) :
  (0 <= q)%Q -> (q < 1)%Q -> (0 < frames_per_chunk cfg)%nat ->
  (buffer2Register.adjusted_frames cfg q < frames_per_chunk cfg)%nat.
Proof.
  destruct q as [a b]; unfold Qle, Qlt; simpl; intros Hq0 Hq1 HF.
  unfold buffer2Register.adjusted_frames, int; simpl.
  change (Z.pos (1 * b)) with (Z.pos b).
  rewrite Z.quot_div_nonneg by nia.
  assert (0 <= Z.of_nat (frames_per_chunk cfg) * a / Z.pos b)
    by (apply Z.div_pos; nia).
  assert (Z.of_nat (frames_per_chunk cfg) * a / Z.pos b
          < Z.of_nat (frames_per_chunk cfg))
    by (apply Z.div_lt_upper_bound; nia).
  lia.
Qed.

(** X14. Speeding up is a no-op on the output: at any speed of at least 1
    (1.05 and 1.00 among the controller's), [play_chunk] of
    [buffer2Register.py] does to a device frame of the stream's shape
    exactly what [play_chunk] of [bufferRegister.py] does, for any chunk. *)
Theorem fast_speed_plays_like_plain (cfg : config) (DAC : frame) (c : chunk)
    (s : Buffering) :
  map length DAC = repeat (NUMBER_OF_CHANNELS cfg) (frames_per_chunk cfg) ->
  (1 <= playback_speed s)%Q ->
  buffer2Register.play_chunk cfg DAC c s = bufferRegister.play_chunk cfg DAC c s.
Proof.
  intros HDAC Hfast.
  destruct (decide (length c
                    = (frames_per_chunk cfg * NUMBER_OF_CHANNELS cfg)%nat))
    as [Hc | Hc].
  - rewrite play_chunk_renders, plain_play_chunk_renders by assumption.
    pose proof (adjusted_frames_fast cfg (playback_speed s) Hfast) as Hk.
    pose proof (rows_of_length (frames_per_chunk cfg) (NUMBER_OF_CHANNELS cfg) c).
    rewrite Nat.min_l by exact Hk.
    rewrite Nat.sub_diag, firstn_all2 by lia.
    simpl. now rewrite app_nil_r.
  - unfold buffer2Register.play_chunk, bufferRegister.play_chunk,
      advance_played, bind, lift, modify, reshape; simpl.
    now rewrite decide_False by exact Hc.
Qed.

Lemma fast_speed_plays_like_plain_witness :
  let cfg := {| byte_order := little; chunks_to_buffer := 5;
                frames_per_chunk := 2; NUMBER_OF_CHANNELS := 2 |} in
  let s := set_playback_speed speed_105 (init cfg) in
  buffer2Register.play_chunk cfg [[0; 0]; [0; 0]] [1; 2; 3; 4] s
  = bufferRegister.play_chunk cfg [[0; 0]; [0; 0]] [1; 2; 3; 4] s.
Proof.
  intros cfg s.
  apply (fast_speed_plays_like_plain cfg [[0; 0]; [0; 0]] [1; 2; 3; 4] s).
  - reflexivity.
  - discriminate.
Defined.

(** X15. Slowing down always costs audio: at any speed below 1 (0.95, 0.80
    and 0.60 among the controller's) and with at least one frame per
    chunk, fewer frames than a chunk holds are copied and the last frame
    handed to the device is silence. *)
Theorem slow_speed_ends_in_silence (cfg : config) (DAC : frame) (c : chunk)
    (s : Buffering) :
  length c = (frames_per_chunk cfg * NUMBER_OF_CHANNELS cfg)%nat ->
  map length DAC = repeat (NUMBER_OF_CHANNELS cfg) (frames_per_chunk cfg) ->
  (0 <= playback_speed s)%Q ->
  (playback_speed s < 1)%Q ->
  (0 < frames_per_chunk cfg)%nat ->
  exists out,
    snd (buffer2Register.play_chunk cfg DAC c s) = Ok out /\
    length out = frames_per_chunk cfg /\
    (buffer2Register.adjusted_frames cfg (playback_speed s)
       < frames_per_chunk cfg)%nat /\
    out !! (frames_per_chunk cfg - 1)%nat
      = Some (repeat 0 (NUMBER_OF_CHANNELS cfg)).
Proof.
  intros Hc HDAC Hq0 Hq1 HF.
  pose proof (adjusted_frames_slow cfg (playback_speed s) Hq0 Hq1 HF) as Hk.
  pose proof (rows_of_length (frames_per_chunk cfg) (NUMBER_OF_CHANNELS cfg) c)
    as Hrows.
  rewrite play_chunk_renders by assumption.
  rewrite Nat.min_r by lia.
  eexists; split; [ reflexivity | ].
  set (k := buffer2Register.adjusted_frames cfg (playback_speed s)) in *.
  assert (Hprefix : length (firstn k (rows_of (frames_per_chunk cfg)
                                        (NUMBER_OF_CHANNELS cfg) c)) = k)
    by (rewrite length_firstn; lia).
  split; [ rewrite length_app, Hprefix, repeat_length; lia | ].
  split; [ exact Hk | ].
  unfold frame. rewrite lookup_app_r by lia. rewrite Hprefix.
  apply lookup_repeat. lia.
Qed.

Lemma slow_speed_ends_in_silence_witness :
  let cfg := {| byte_order := little; chunks_to_buffer := 5;
                frames_per_chunk := 3; NUMBER_OF_CHANNELS := 1 |} in
  let s := set_playback_speed speed_080 (init cfg) in
  exists out,
    snd (buffer2Register.play_chunk cfg [[9]; [9]; [9]] [1; 2; 3] s) = Ok out /\
    length out = 3%nat /\
    (buffer2Register.adjusted_frames cfg (playback_speed s) < 3)%nat /\
    out !! 2%nat = Some [0].
Proof.
  intros cfg s.
  apply (slow_speed_ends_in_silence cfg [[9]; [9]; [9]] [1; 2; 3] s).
  - reflexivity.
  - reflexivity.
  - discriminate.
  - reflexivity.
  - simpl; lia.
Defined.

(** X16. The slow speeds need room below the threshold: the controller
    sets 0.95 only when [chunks_to_buffer] is at least 6, 0.80 only when it
    is at least 5 and 0.60 only when it is at least 4; with at most 3
    chunks to buffer it never slows playback down. *)
Theorem slow_speeds_need_large_target (cfg : config) (s : Buffering) :
  well_formed cfg ->
  let r := playback_speed (fst (adjust_playback_speed cfg s)) in
  (r = speed_095 -> 6 <= chunks_to_buffer cfg) /\
  (r = speed_080 -> 5 <= chunks_to_buffer cfg) /\
  (r = speed_060 -> 4 <= chunks_to_buffer cfg) /\
  (chunks_to_buffer cfg <= 3 -> r = speed_105 \/ r = speed_100).
Proof.
  intros Hwf r; pose proof (cells_positive cfg Hwf) as Hcells.
  pose proof (Z.mod_pos_bound (chunk_number s - played_chunk_number s)
                (cells_in_buffer cfg) Hcells) as Ho.
  fold (chunks_in_buffer cfg s) in Ho.
  unfold r, adjust_playback_speed, modify; simpl.
  destruct (Z.geb_spec (chunks_in_buffer cfg s) (chunks_to_buffer cfg - 2));
    [ simpl; repeat split; intros; try discriminate; auto | ].
  destruct (Z.eqb_spec (chunks_in_buffer cfg s) 3);
    [ simpl; repeat split; intros; try discriminate; lia | ].
  destruct (Z.eqb_spec (chunks_in_buffer cfg s) 2);
    [ simpl; repeat split; intros; try discriminate; lia | ].
  destruct (Z.eqb_spec (chunks_in_buffer cfg s) 1);
    [ simpl; repeat split; intros; try discriminate; lia | ].
  simpl; repeat split; intros; try discriminate; auto.
Qed.

Lemma slow_speeds_need_large_target_witness :
  let cfg := {| byte_order := little; chunks_to_buffer := 3;
                frames_per_chunk := 2; NUMBER_OF_CHANNELS := 1 |} in
  let s := set_chunk_number 1 (init cfg) in
  playback_speed (fst (adjust_playback_speed cfg s)) = speed_105 \/
  playback_speed (fst (adjust_playback_speed cfg s)) = speed_100.
Proof.
  intros cfg s.
  destruct (slow_speeds_need_large_target cfg s) as (_ & _ & _ & Hsmall).
  - unfold well_formed, cfg; simpl; lia.
  - apply Hsmall. simpl; lia.
Defined.

(** ** The verbose subclass *)

Ltac unfold_verbose :=
  unfold verbose._record_IO_and_play, verbose.receive_and_buffer,
    verbose.send, verbose.receive, bindV, inherited in *.

Lemma verbose_callback_steps (cfg : config) (outcome : result unit)
    (ADC DAC : frame) (v : Buffering__verbose) :
  verbose._record_IO_and_play cfg outcome ADC DAC v
  = let out := bufferRegister._record_IO_and_play cfg outcome ADC DAC (base v) in
    let v1 := with_base (fst out)
                (if is_ok outcome then count_sent (outgoing cfg ADC (base v)) v
                 else v) in
    (match snd out with
     | Ok played => set_recorded_chunk played v1
     | Raise _ => v1
     end, snd out).
Proof.
  rewrite plain_callback_steps.
  unfold_verbose. unfold next_chunk_number, send, lift, gets, modify.
  unfold bind at 1; cbn [fst snd base with_base chunk_number set_chunk_number].
  rewrite pack_next_number.
  destruct outcome as [ [] | e ]; [ | reflexivity ].
  cbn [is_ok base with_base count_sent].
  fold (numbered (base v)). fold (outgoing cfg ADC (base v)).
  change (sock_sent (numbered (base v))) with (sock_sent (base v)).
  fold (transmitted cfg ADC (base v)).
  unfold bind.
  destruct (unbuffer_next_chunk cfg (transmitted cfg ADC (base v)))
    as [s2 [c | e]]; [ | reflexivity ].
  cbn [base with_base].
  destruct (bufferRegister.play_chunk cfg DAC c s2) as [s3 [played | e]];
    reflexivity.
Qed.

(** X17. The statistics of the verbose subclass do not touch the engine:
    its callback leaves the attributes of [Buffering] exactly as the
    callback of [Buffering] does, returns what it returns, and records the
    played frame only when that callback returned one. *)
Theorem verbose_callback_simulates (cfg : config) (outcome : result unit)
    (ADC DAC : frame) (v : Buffering__verbose) :
  let out := bufferRegister._record_IO_and_play cfg outcome ADC DAC (base v) in
  let vout := verbose._record_IO_and_play cfg outcome ADC DAC v in
  base (fst vout) = fst out /\
  snd vout = snd out /\
  recorded_chunk (fst vout)
  = match snd out with
    | Ok played => Some played
    | Raise _ => recorded_chunk v
    end.
Proof.
  intros out vout; unfold vout; rewrite verbose_callback_steps; fold out.
  cbn [fst snd].
  destruct (snd out), (is_ok outcome); repeat split; reflexivity.
Qed.

Lemma verbose_callback_counters (cfg : config) (outcome : result unit)
    (ADC DAC : frame) (v : Buffering__verbose) :
  let v' := fst (verbose._record_IO_and_play cfg outcome ADC DAC v) in
  sent_messages_count v'
  = sent_messages_count v + (if is_ok outcome then 1 else 0) /\
  sent_bytes_count v'
  = sent_bytes_count v
    + (if is_ok outcome then 2 + 2 * Z.of_nat (length (concat ADC)) else 0).
Proof.
  intros v'; unfold v'; rewrite verbose_callback_steps; cbn [fst].
  assert (Hlen : Z.of_nat (length (outgoing cfg ADC (base v)))
                 = 2 + 2 * Z.of_nat (length (concat ADC))).
  { unfold outgoing. rewrite length_app, tobytes_length. simpl length. lia. }
  destruct (snd _), (is_ok outcome);
    cbn [fst snd sent_bytes_count sent_messages_count with_base count_sent
         set_recorded_chunk];
    rewrite ?Hlen; split; lia.
Qed.

(** X18. Over any sequence of callbacks the verbose object counts exactly
    the datagrams the socket accepted and their bytes, two for the header
    and two for each sample; a refused datagram is not counted.  When every
    captured frame has the configured size, each accepted datagram counts
    [2 + 2 * frames_per_chunk * NUMBER_OF_CHANNELS] bytes. *)
Theorem verbose_sent_statistics (cfg : config) (periods : list period)
    (v : Buffering__verbose) :
  let v' := verbose_callbacks cfg periods v in
  sent_messages_count v' = sent_messages_count v + accepted_count periods /\
  sent_bytes_count v' = sent_bytes_count v + accepted_bytes cfg periods /\
  (Forall (fun p : period =>
             length (concat (snd (fst p)))
             = (frames_per_chunk cfg * NUMBER_OF_CHANNELS cfg)%nat) periods ->
   accepted_bytes cfg periods
   = (2 + 2 * Z.of_nat (frames_per_chunk cfg * NUMBER_OF_CHANNELS cfg))
     * accepted_count periods).
Proof.
  intros v'; subst v'; unfold verbose_callbacks, accepted_count.
  split; [ | split ].
  - revert v; induction periods as [ | [[outcome ADC] DAC] periods IH ];
      intros v; simpl; [ lia | ].
    rewrite IH.
    destruct (verbose_callback_counters cfg outcome ADC DAC v) as [-> _].
    destruct (is_ok outcome); simpl length; lia.
  - revert v; induction periods as [ | [[outcome ADC] DAC] periods IH ];
      intros v; simpl; [ lia | ].
    rewrite IH.
    destruct (verbose_callback_counters cfg outcome ADC DAC v) as [_ ->].
    destruct (is_ok outcome); lia.
  - induction 1 as [ | [[outcome ADC] DAC] periods Hshape _ IH ];
      simpl; [ lia | ].
    simpl in Hshape. rewrite IH, Hshape.
    destruct (is_ok outcome); simpl length; lia.
Qed.

Lemma verbose_sent_statistics_witness :
  let cfg := {| byte_order := little; chunks_to_buffer := 5;
                frames_per_chunk := 2; NUMBER_OF_CHANNELS := 1 |} in
  let periods : list period :=
    [(Ok tt, [[1]; [2]], [[0]; [0]]);
     (Raise OSError, [[3]; [4]], [[0]; [0]]);
     (Ok tt, [[5]; [6]], [[0]; [0]])] in
  accepted_bytes cfg periods
  = (2 + 2 * Z.of_nat (frames_per_chunk cfg * NUMBER_OF_CHANNELS cfg))
    * accepted_count periods.
Proof.
  intros cfg periods.
  pose (v := {| base := init cfg; sent_bytes_count := 0;
                sent_messages_count := 0; received_bytes_count := 0;
                received_messages_count := 0; recorded_chunk := None |}).
  destruct (verbose_sent_statistics cfg periods v) as (_ & _ & Hshape).
  apply Hshape. repeat constructor.
Defined.

(** X19. The verbose receive loop counts a datagram before decoding it:
    every delivered datagram adds one message and its length to the
    receive statistics, also when [unpack] then rejects it, and the ring
    is changed exactly as by [receive_and_buffer] of [Buffering]; when the
    socket raises, nothing is counted. *)
Theorem verbose_receive_counts_first (cfg : config) (delivered : result bytes)
    (v : Buffering__verbose) :
  let vout := verbose.receive_and_buffer cfg delivered v in
  match delivered with
  | Ok packed_chunk =>
      received_messages_count (fst vout) = received_messages_count v + 1 /\
      received_bytes_count (fst vout)
      = received_bytes_count v + Z.of_nat (length packed_chunk) /\
      base (fst vout) = fst (receive_and_buffer cfg packed_chunk (base v)) /\
      snd vout = snd (receive_and_buffer cfg packed_chunk (base v))
  | Raise e => vout = (v, Raise e)
  end.
Proof.
  intros vout; subst vout; destruct delivered as [p | e]; [ | reflexivity ].
  unfold_verbose. unfold receive_and_buffer, bind, lift, ret.
  cbn [base count_received with_base].
  destruct (unpack (byte_order cfg) p) as [[n c] | e];
    cbn [fst snd base count_received with_base].
  - destruct (buffer_chunk cfg n c (base v)) as [s1 [[] | e]];
      cbn [fst snd base count_received with_base
           received_messages_count received_bytes_count];
      repeat split; reflexivity.
  - repeat split; reflexivity.
Qed.
